(** * The admin session gate of [middleware.ts]

    A shallow embedding of the Next.js middleware that guards the
    administrative pages and API routes of the blog, and the properties
    of its routing decision.

    Strings are Stdlib strings, the request's cookie jar and the response
    headers are finite maps from names to values, and [console.log] is a
    writer effect whose output is returned next to the response. *)

From Stdlib Require Import ZArith Bool Ascii String List.
From stdpp Require Import base option gmap strings.
Import ListNotations.

Local Open Scope Z_scope.
Local Open Scope string_scope.

(** ** JavaScript primitives used by the middleware *)

Module JS.

(** [s.startsWith(searchString)]: code units of [searchString] are
    compared with those of [s] from position 0. *)
Fixpoint startsWith (s searchString : string) {struct searchString} : bool :=
  match searchString with
  | EmptyString => true
  | String c search' =>
      match s with
      | EmptyString => false
      | String d s' => Ascii.eqb d c && startsWith s' search'
      end
  end.

(** Truthiness of a value of type [string | undefined]: [undefined]
    ([None]) and the empty string are falsy, every other string is
    truthy.  [!!v] is [truthy v]. *)
Definition truthy (v : option string) : bool :=
  match v with
  | None => false
  | Some s => negb (s =? "")
  end.

(** The lower-case hexadecimal digit of [n < 16]. *)
Definition hex_digit (n : N) : ascii :=
  if (n <? 10)%N then ascii_of_N (48 + n) else ascii_of_N (87 + n).

Definition backslash : ascii := ascii_of_N 92.

(** A two-character escape: a backslash and [c]. *)
Definition escape_with (c : ascii) : string := String backslash (String c "").

(** [JSON.stringify] on one code unit inside a string literal. *)
Definition JSON_escape (c : ascii) : string :=
  let n := N_of_ascii c in
  if (n =? 34)%N then escape_with c
  else if (n =? 92)%N then escape_with c
  else if (n =? 8)%N then escape_with "b"
  else if (n =? 12)%N then escape_with "f"
  else if (n =? 10)%N then escape_with "n"
  else if (n =? 13)%N then escape_with "r"
  else if (n =? 9)%N then escape_with "t"
  else if (n <? 32)%N then
    String backslash "u00"
      ++ String (hex_digit (n / 16)) (String (hex_digit (n mod 16)) "")
  else String c "".

Fixpoint JSON_escape_all (s : string) : string :=
  match s with
  | EmptyString => ""
  | String c s' => JSON_escape c ++ JSON_escape_all s'
  end.

Definition dquote : string := String (ascii_of_N 34) "".

(** [JSON.stringify] of a string. *)
Definition JSON_quote (s : string) : string :=
  dquote ++ JSON_escape_all s ++ dquote.

Fixpoint JSON_members (fields : list (string * string)) : string :=
  match fields with
  | [] => ""
  | [(k, v)] => JSON_quote k ++ ":" ++ JSON_quote v
  | (k, v) :: rest => JSON_quote k ++ ":" ++ JSON_quote v ++ "," ++ JSON_members rest
  end.

(** [JSON.stringify] of an object literal whose properties are all
    strings, in insertion order and without white space. *)
Definition JSON_stringify (fields : list (string * string)) : string :=
  "{" ++ JSON_members fields ++ "}".

(** The console: every [console.log] appends one line. *)
Definition Console (A : Type) : Type := (A * list string)%type.

Definition ret {A} (a : A) : Console A := (a, []).

Definition bind {A B} (m : Console A) (k : A -> Console B) : Console B :=
  let '(a, out) := m in
  let '(b, out') := k a in
  (b, (out ++ out')%list).

Definition console_log (line : string) : Console unit := (tt, [line]).

Definition result {A} (m : Console A) : A := fst m.
Definition output {A} (m : Console A) : list string := snd m.

End JS.

Notation "m '>>' k" := (JS.bind m (fun _ => k))
  (at level 61, k at level 200, right associativity, only parsing).

(** ** The parts of [next/server] the middleware touches *)

Module Next.

(** A parsed absolute URL.  [href] is the serialised form. *)
Record URL : Type := mkURL {
  origin : string;      (* scheme and authority, e.g. https://blog.example *)
  pathname : string;    (* starts with / *)
  search : string       (* empty, or ? followed by the query *)
}.

Definition href (u : URL) : string := origin u ++ pathname u ++ search u.

(** [new URL(input, base)] for an [input] that is an absolute path
    without query or fragment, which is the only way the middleware
    calls it: the origin comes from [base], path and query of [base]
    are dropped. *)
Definition new_URL (input : string) (base : URL) : URL :=
  {| origin := origin base; pathname := input; search := "" |}.

(** The request as the middleware sees it.  [cookies] maps a cookie
    name to its value; [request.cookies.get(n)?.value] is the lookup
    [cookies request !! n], with [None] for [undefined]. *)
Record NextRequest : Type := mkRequest {
  nextUrl : URL;
  cookies : gmap string string
}.

(** [request.url]: the request URL; no base path or locale is
    configured, so it denotes the same URL as [request.nextUrl]. *)
Definition url (request : NextRequest) : URL := nextUrl request.

(** The second argument of the [NextResponse] constructor. *)
Record ResponseInit : Type := mkInit {
  init_status : Z;
  init_headers : list (string * string)
}.

(** The three ways the middleware builds its answer. *)
Inductive NextResponse : Type :=
| next                                            (* NextResponse.next() *)
| new_NextResponse (body : string) (init : ResponseInit)
| redirect (target : URL).                        (* NextResponse.redirect(url) *)

Definition lower_ascii (c : ascii) : ascii :=
  let n := N_of_ascii c in
  if ((65 <=? n) && (n <=? 90))%N then ascii_of_N (n + 32) else c.

Fixpoint toLowerCase (s : string) : string :=
  match s with
  | EmptyString => ""
  | String c s' => String (lower_ascii c) (toLowerCase s')
  end.

(** [headers.append(name, value)]: names are case-insensitive and kept
    in lower case; a second value for a name is joined to the first. *)
Definition Headers_append (h : gmap string string) (name value : string)
  : gmap string string :=
  let key := toLowerCase name in
  match h !! key with
  | Some earlier => <[key := earlier ++ ", " ++ value]> h
  | None => <[key := value]> h
  end.

(** [new Headers(init)] for an object literal [init], property by
    property. *)
Definition Headers (init : list (string * string)) : gmap string string :=
  fold_left (fun h entry => Headers_append h (fst entry) (snd entry)) init ∅.

(** What goes on the wire.  [next()] is the framework's continue
    signal (status 200, marker header, no body); [redirect] answers
    307 with a [Location] header and no body. *)
Definition status (r : NextResponse) : Z :=
  match r with
  | next => 200
  | new_NextResponse _ init => init_status init
  | redirect _ => 307
  end.

Definition body (r : NextResponse) : option string :=
  match r with
  | new_NextResponse b _ => Some b
  | next | redirect _ => None
  end.

Definition headers (r : NextResponse) : gmap string string :=
  match r with
  | next => {[ "x-middleware-next" := "1" ]}
  | new_NextResponse _ init => Headers (init_headers init)
  | redirect target => {[ "location" := href target ]}
  end.

(** [response.headers.get(name)] *)
Definition headers_get (r : NextResponse) (name : string) : option string :=
  headers r !! toLowerCase name.

End Next.

(** ** middleware.ts *)

Import JS Next.

(** [path.startsWith('/admin') && path !== '/admin/login'] *)
Definition isAdminUIPath (path : string) : bool :=
  startsWith path "/admin" && negb (path =? "/admin/login").

(** [path.startsWith('/api/admin') && !path.startsWith('/api/admin/login')] *)
Definition isAdminApiPath (path : string) : bool :=
  startsWith path "/api/admin" && negb (startsWith path "/api/admin/login").

(** [request.cookies.get('session')?.value] *)
Definition sessionCookie (request : NextRequest) : option string :=
  cookies request !! "session".

(** [!!sessionCookie] *)
Definition isAuthenticated (request : NextRequest) : bool :=
  truthy (sessionCookie request).

(** The template literal handed to [console.log]. *)
Definition log_line (path : string) (authenticated : bool) : string :=
  "[Middleware] Path: " ++ path ++ ", Auth: " ++ (if authenticated then "Yes" else "No").

(** The 401 answer for API routes. *)
Definition unauthorized : NextResponse :=
  new_NextResponse
    (JSON_stringify [("error", "Unauthorized"); ("code", "not_authenticated")])
    {| init_status := 401;
       init_headers := [("Content-Type", "application/json")] |}.

Definition middleware (request : NextRequest) : Console NextResponse :=
  let path := pathname (nextUrl request) in
  if negb (isAdminUIPath path) && negb (isAdminApiPath path) then
    ret next
  else
    console_log (log_line path (isAuthenticated request)) >>
    if negb (isAuthenticated request) then
      if isAdminApiPath path then
        ret unauthorized
      else if isAdminUIPath path then
        ret (redirect (new_URL "/admin/login" (url request)))
      else
        ret next
    else
      ret next.

(** ** Vocabulary of the statements *)

(** The request carries a [session] cookie with a non-empty value. *)
Definition session_present (jar : gmap string string) : Prop :=
  exists token, jar !! "session" = Some token /\ token <> "".

(** The request carries no usable [session] cookie: there is none, or
    its value is the empty string. *)
Definition session_missing (jar : gmap string string) : Prop :=
  jar !! "session" = None \/ jar !! "session" = Some "".

(** The login page on the origin the request was sent to. *)
Definition login_url (request : NextRequest) : URL :=
  {| origin := origin (url request); pathname := "/admin/login"; search := "" |}.

(** What the caller of the gate observes of a response, leaving out the
    host the request came in on. *)
Inductive Decision : Type :=
| PassThrough
| Reject (code : Z) (payload : string) (content_type : option string)
| RedirectTo (path : string).

Definition decision (r : NextResponse) : Decision :=
  match r with
  | next => PassThrough
  | new_NextResponse b _ => Reject (status r) b (headers_get r "Content-Type")
  | redirect target => RedirectTo (pathname target)
  end.

(** Writes a JSON text with single quotes standing for double quotes. *)
Fixpoint json_text (s : string) : string :=
  match s with
  | EmptyString => ""
  | String c s' =>
      String (if Ascii.eqb c "'"%char then ascii_of_N 34 else c) (json_text s')
  end.

(** The three answers the gate can give. *)
Definition outcomes : list Decision :=
  [ PassThrough;
    Reject 401 (json_text "{'error':'Unauthorized','code':'not_authenticated'}")
           (Some "application/json");
    RedirectTo "/admin/login" ].

(** ** The route matcher of middleware.ts *)

(** [config.matcher] *)
Definition config_matcher : list string :=
  ["/admin/:path*"; "/api/admin/:path*"].

Module Matcher.

Fixpoint no_slash (s : string) : bool :=
  match s with
  | EmptyString => true
  | String c s' => negb (Ascii.eqb c "/") && no_slash s'
  end.

Fixpoint ends_with_star (s : string) : bool :=
  match s with
  | EmptyString => false
  | String c EmptyString => Ascii.eqb c "*"
  | String _ s' => ends_with_star s'
  end.

(** A last pattern segment of the form [:name*]. *)
Definition is_wildcard (segment : string) : bool :=
  startsWith segment ":" && ends_with_star segment && no_slash segment.

(** The literal part of a pattern [literal/:name*], if it has that
    form. *)
Fixpoint wildcard_prefix (pattern : string) : option string :=
  match pattern with
  | EmptyString => None
  | String c rest =>
      if Ascii.eqb c "/" && is_wildcard rest then Some ""
      else option_map (String c) (wildcard_prefix rest)
  end.

(** What is left of [s] after [prefix], if [s] starts with it. *)
Fixpoint strip_prefix (prefix s : string) : option string :=
  match prefix with
  | EmptyString => Some s
  | String c prefix' =>
      match s with
      | EmptyString => None
      | String d s' => if Ascii.eqb d c then strip_prefix prefix' s' else None
      end
  end.

(** No empty segment from here on; [after_slash] tells that the
    previous character was a separator.  A closing separator is
    allowed. *)
Fixpoint segments (s : string) (after_slash : bool) : bool :=
  match s with
  | EmptyString => true
  | String c s' =>
      if Ascii.eqb c "/" then negb after_slash && segments s' true
      else segments s' false
  end.

(** Zero or more segments, each led by a separator. *)
Definition zero_or_more_segments (s : string) : bool :=
  match s with
  | EmptyString => true
  | String c _ => Ascii.eqb c "/" && segments s false
  end.

(** Modelled from the spec: the framework's matching of a request path
    against one matcher pattern, which is no part of the repository.
    The spec gives the two patterns as [{prefix}/*]: a pattern
    [literal/:name*] selects the literal itself and every path that
    goes on from it with a separator and zero or more segments; a
    pattern without parameter selects itself only. *)
Definition matches (pattern path : string) : bool :=
  match wildcard_prefix pattern with
  | Some literal =>
      match strip_prefix literal path with
      | Some rest => zero_or_more_segments rest
      | None => false
      end
  | None => String.eqb pattern path
  end.

End Matcher.

(** The request is one the matcher selects. *)
Definition selected (path : string) : bool :=
  existsb (fun pattern => Matcher.matches pattern path) config_matcher.


(** ** Text typed into the admin forms *)

Module Text.

(** Form text is a sequence of UTF-16 code units, as a JavaScript string
    is; [units] writes an ASCII literal that way. *)
Definition units (s : string) : list N :=
  map N_of_ascii (list_ascii_of_string s).

(** White space and line terminators of ECMAScript, the code units
    [trim] removes. *)
Definition isWhiteSpace (c : N) : bool :=
  ((9 <=? c) && (c <=? 13) || (c =? 32) || (c =? 160) || (c =? 5760)
   || (8192 <=? c) && (c <=? 8202) || (c =? 8232) || (c =? 8233)
   || (c =? 8239) || (c =? 8287) || (c =? 12288) || (c =? 65279))%N.

Fixpoint trimStart (s : list N) : list N :=
  match s with
  | [] => []
  | c :: s' => if isWhiteSpace c then trimStart s' else s
  end.

Definition trimEnd (s : list N) : list N := reverse (trimStart (reverse s)).

(** [s.trim()] *)
Definition trim (s : list N) : list N := trimEnd (trimStart s).

(** [s.split(sep)] for a separator of one code unit: always at least
    one piece, the empty string giving one empty piece. *)
Fixpoint split (sep : N) (s : list N) : list (list N) :=
  match s with
  | [] => [[]]
  | c :: s' =>
      if (c =? sep)%N then [] :: split sep s'
      else
        match split sep s' with
        | piece :: pieces => (c :: piece) :: pieces
        | [] => [[c]]
        end
  end.

(** [parts.join(sep)] for an array of strings. *)
Fixpoint join (sep : list N) (parts : list (list N)) : list N :=
  match parts with
  | [] => []
  | p :: rest =>
      match rest with
      | [] => p
      | _ :: _ => p ++ sep ++ join sep rest
      end
  end.

(** Truthiness of a string: [Boolean(s)], [!!s]. *)
Definition Boolean (s : list N) : bool :=
  match s with
  | [] => false
  | _ :: _ => true
  end.

End Text.

(** ** The blog form of the create and edit pages *)

Module BlogForm.

Import Text.

(** What the pages read of a selected [File]. *)
Record File : Type := mkFile {
  file_name : string;
  file_type : string;       (* MIME type *)
  file_size : Z             (* bytes *)
}.

Record BlogFormData : Type := mkForm {
  title : list N;
  slug : list N;
  content : list N;
  excerpt : list N;
  coverImage : list N;
  tags : list N;
  published : bool
}.

(** The [useState] cells the handlers below read and write.
    [previews] lists the files a [FileReader] was started on, in order;
    the preview itself arrives later, when the read completes. *)
Record PageState : Type := mkPage {
  formData : BlogFormData;
  imageFile : option File;
  previews : list File;
  validationErrors : gmap string string
}.

(** The state of a freshly mounted create page. *)
Definition initial : PageState :=
  {| formData := mkForm [] [] [] [] [] [] false;
     imageFile := None;
     previews := [];
     validationErrors := ∅ |}.

Definition setValidationErrors
    (update : gmap string string -> gmap string string) (st : PageState)
  : PageState :=
  {| formData := formData st; imageFile := imageFile st;
     previews := previews st;
     validationErrors := update (validationErrors st) |}.

Definition setImageFile (file : File) (st : PageState) : PageState :=
  {| formData := formData st; imageFile := Some file;
     previews := previews st;
     validationErrors := validationErrors st |}.

(** [new FileReader().readAsDataURL(file)] *)
Definition readAsDataURL (file : File) (st : PageState) : PageState :=
  {| formData := formData st; imageFile := imageFile st;
     previews := previews st ++ [file];
     validationErrors := validationErrors st |}.

(** [handleImageChange]; the argument is [e.target.files?.[0]]. *)
Definition handleImageChange (selected : option File) (st : PageState)
  : PageState :=
  match selected with
  | None => st
  | Some file =>
      if negb (startsWith (file_type file) "image/") then
        setValidationErrors
          (fun prev => <["coverImage" := "Please select an image file"]> prev) st
      else if (5 * 1024 * 1024 <? file_size file)%Z then
        setValidationErrors
          (fun prev => <["coverImage" := "Image size must be less than 5MB"]> prev) st
      else
        readAsDataURL file
          (setValidationErrors (fun prev => delete "coverImage" prev)
             (setImageFile file st))
  end.

(** The [errors] object of [validateForm], assignment by assignment. *)
Definition formErrors (st : PageState) : gmap string string :=
  let form := formData st in
  let errors : gmap string string := ∅ in
  let errors :=
    if negb (Boolean (trim (title form)))
    then <["title" := "Title is required"]> errors else errors in
  let errors :=
    if negb (Boolean (trim (slug form)))
    then <["slug" := "Slug is required"]> errors else errors in
  let errors :=
    if negb (Boolean (trim (content form)))
    then <["content" := "Content is required"]> errors else errors in
  let errors :=
    if negb (Boolean (trim (excerpt form)))
    then <["excerpt" := "Excerpt is required"]> errors else errors in
  let errors :=
    if negb (bool_decide (is_Some (imageFile st)))
       && negb (Boolean (coverImage form))
    then <["coverImage" := "Cover image is required"]> errors else errors in
  errors.

(** [validateForm]: stores the errors and tells whether there are none. *)
Definition validateForm (st : PageState) : bool * PageState :=
  let errors := formErrors st in
  (Nat.eqb (size errors) 0, setValidationErrors (fun _ => errors) st).

(** [tags.split(',').map(tag => tag.trim()).filter(Boolean)]: the tag
    list sent on submit. *)
Definition parseTags (field : list N) : list (list N) :=
  List.filter Boolean (map trim (split 44 field)).

(** [Array.isArray(blog.tags) ? blog.tags.join(', ') : ''] with the
    loaded [blog.tags] being an array of strings or not an array at
    all ([None]). *)
Definition formatTags (loaded : option (list (list N))) : list N :=
  match loaded with
  | Some array => join [44; 32]%N array
  | None => []
  end.

End BlogForm.

(** ** Vocabulary of the form statements *)

(** Nothing but white space (the empty text included). *)
Definition blank (s : list N) : Prop :=
  Forall (fun c => Text.isWhiteSpace c = true) s.

(** A tag as the server stores it after a submit: not empty, free of
    commas, no white space at either end. *)
Definition clean_tag (t : list N) : Prop :=
  t <> [] /\ (44%N ∉ t) /\ Text.trim t = t.

(** A file the image picker accepts. *)
Definition acceptable_image (f : BlogForm.File) : Prop :=
  startsWith (BlogForm.file_type f) "image/" = true /\
  (BlogForm.file_size f <= 5242880)%Z.

(** The test the image picker applies, as one boolean. *)
Definition acceptable_imageb (f : BlogForm.File) : bool :=
  startsWith (BlogForm.file_type f) "image/"
  && (BlogForm.file_size f <=? 5242880)%Z.

(** The selections that pass the test, in the order they were made. *)
Fixpoint accepted (picks : list (option BlogForm.File)) : list BlogForm.File :=
  match picks with
  | [] => []
  | Some f :: later =>
      if acceptable_imageb f then f :: accepted later else accepted later
  | None :: later => accepted later
  end.

(** A run of file selections, oldest first. *)
Definition select_all (picks : list (option BlogForm.File))
    (st : BlogForm.PageState) : BlogForm.PageState :=
  fold_left (fun s pick => BlogForm.handleImageChange pick s) picks st.

(** ** The route handlers of the blog API *)

From Stdlib Require Import DecimalString.

Module Api.

Local Set Warnings "-register-all".

(** A value produced by [JSON.parse]; numbers are kept abstract. *)
Inductive Json (Num : Type) : Type :=
| JNull
| JBool (b : bool)
| JNumber (n : Num)
| JString (s : list N)
| JArray (items : list (Json Num))
| JObject (members : list (list N * Json Num)).

Arguments JNull {Num}.
Arguments JBool {Num} b.
Arguments JNumber {Num} n.
Arguments JString {Num} s.
Arguments JArray {Num} items.
Arguments JObject {Num} members.

(** The property name of an array index. *)
Definition index_key (i : nat) : list N :=
  Text.units (NilEmpty.string_of_uint (Nat.to_uint i)).

(** The own enumerable properties of a value, which is what the spread
    [{...v}] copies: the members of an object (a repeated name keeps
    its last value), the elements of an array and the code units of a
    string under their indices, nothing for the other values. *)
Definition own_properties {Num} (v : Json Num) : gmap (list N) (Json Num) :=
  match v with
  | JObject members =>
      fold_left (fun props member => <[member.1 := member.2]> props) members ∅
  | JArray items =>
      list_to_map (imap (fun i item => (index_key i, item)) items)
  | JString s =>
      list_to_map (imap (fun i c => (index_key i, JString [c])) s)
  | JNull | JBool _ | JNumber _ => ∅
  end.

(** A call either returns or throws. *)
Inductive Outcome (E A : Type) : Type :=
| Returned (a : A)
| Threw (e : E).

Arguments Returned {E A} a.
Arguments Threw {E A} e.

(** A call that may also change the state it runs in. *)
Definition Call (S E A : Type) : Type := S -> Outcome E A * S.

Definition pure {S E A} (a : A) : Call S E A := fun s => (Returned a, s).

Definition throw {S E A} (e : E) : Call S E A := fun s => (Threw e, s).

(** Sequencing: a throw skips the rest, the state reached is kept. *)
Definition bind {S E A B} (m : Call S E A) (k : A -> Call S E B) : Call S E B :=
  fun s =>
    match m s with
    | (Returned a, s') => k a s'
    | (Threw e, s') => (Threw e, s')
    end.

(** [try { body } catch (error) { handler }] *)
Definition try_catch {S E A} (body : Call S E A) (handler : E -> Call S E A)
  : Call S E A :=
  fun s =>
    match body s with
    | (Returned a, s') => (Returned a, s')
    | (Threw e, s') => handler e s'
    end.

(** The result of an expression that cannot touch the state. *)
Definition eval {S E A} (o : Outcome E A) : Call S E A := fun s => (o, s).

(** What the handlers import and are handed by the framework: the
    session helper, the database connection, the [Blog] model, the
    ImageKit client, the request body parser, the serialiser behind
    [NextResponse.json] and the clock.  None of them is part of these
    files, so each is taken as it comes: any may throw, any may change
    the world. *)
Class Backend : Type := {
  World : Type;
  Failure : Type;      (* what can be thrown *)
  Session : Type;      (* a session object *)
  Document : Type;     (* a blog document *)
  Num : Type;          (* a JavaScript number *)
  Native : Type;       (* a value that is no JSON value: a Date, an ObjectId *)
  number_truthy : Num -> bool;
  TypeError_null : Failure;   (* thrown on reading a property of null *)
  getSession : Call World Failure (option Session);
  session_user_id : Session -> Outcome Failure (Json Num + Native);
  connectDB : Call World Failure unit;
  request_json : NextRequest -> Call World Failure (Json Num);
  new_Date : Call World Failure Native;
  Blog_findById : string -> Call World Failure (option Document);
  Blog_findByIdAndUpdate : string -> Json Num -> Call World Failure (option Document);
  Blog_findByIdAndDelete : string -> Call World Failure (option Document);
  (* Blog.find().sort({ createdAt: -1 }).select(...) *)
  Blog_find_newest_first : Call World Failure (list Document);
  (* Blog.findOne({ slug, published: true }).lean() *)
  Blog_findOne_published : string -> Call World Failure (option Document);
  Blog_new : gmap (list N) (Json Num + Native) -> Call World Failure Document;
  Blog_save : Document -> Call World Failure Document;
  (* imagekit.getAuthenticationParameters(), serialised *)
  imagekit_getAuthenticationParameters : Call World Failure string;
  stringify_document : Document -> Call World Failure string;
  stringify_documents : list Document -> Call World Failure string
}.

Section Handlers.

Context `{Backend}.

(** A handler runs in the world together with the error console. *)
Definition Console_line : Type := (string * Failure)%type.
Definition Server : Type := (World * list Console_line)%type.
Definition Eff (A : Type) : Type := Call Server Failure A.

(** A call of an imported operation, as [await op(...)]. *)
Definition await {A} (op : Call World Failure A) : Eff A :=
  fun s =>
    let '(o, w) := op s.1 in (o, (w, s.2)).

(** [console.error(label, error)] *)
Definition console_error (label : string) (error : Failure) : Eff unit :=
  fun s => (Returned tt, (s.1, (s.2 ++ [(label, error)])%list)).

(** [NextResponse.json(data, { status })] on the serialised [data]. *)
Definition NextResponse_json (data : string) (code : Z) : NextResponse :=
  new_NextResponse data
    {| init_status := code;
       init_headers := [("content-type", "application/json")] |}.

(** [NextResponse.json({ error: message }, { status })] *)
Definition json_error (message : string) (code : Z) : NextResponse :=
  NextResponse_json (JSON_stringify [("error", message)]) code.

(** [JSON.stringify({ success: true })] *)
Definition JSON_success : string :=
  "{" ++ JSON_quote "success" ++ ":true}".

(** Truthiness of the value of a property read; [None] is
    [undefined]. *)
Definition truthy_json (v : option (Json Num)) : bool :=
  match v with
  | None | Some JNull => false
  | Some (JBool b) => b
  | Some (JNumber n) => number_truthy n
  | Some (JString s) => Text.Boolean s
  | Some (JArray _) | Some (JObject _) => true
  end.

(** [body.published]: a [TypeError] on [null], otherwise the own
    property of that name if there is one (no prototype of a JSON value
    has it). *)
Definition read_published (body : Json Num)
  : Outcome Failure (option (Json Num)) :=
  match body with
  | JNull => Threw TypeError_null
  | _ => Returned (own_properties body !! Text.units "published")
  end.

(** [{ ...body, author, publishedAt }] *)
Definition blog_fields (body : Json Num) (author publishedAt : Json Num + Native)
  : gmap (list N) (Json Num + Native) :=
  <[Text.units "publishedAt" := publishedAt]>
    (<[Text.units "author" := author]> (inl <$> own_properties body)).

End Handlers.

End Api.

Notation "x <~ m ; k" := (Api.bind m (fun x => k))
  (at level 20, m at level 100, k at level 200, only parsing).

Module Routes.

Import Api.

Section Routes.

Context `{Backend}.

(** *** api/admin/blogs/[id]/route.ts *)

Definition GET_blog (request : NextRequest) (id : string) : Eff NextResponse :=
  try_catch
    (session <~ await getSession ;
     if negb (bool_decide (is_Some session)) then
       pure (json_error "Unauthorized" 401)
     else
       _ <~ await connectDB ;
       blog <~ await (Blog_findById id) ;
       match blog with
       | None => pure (json_error "Blog not found" 404)
       | Some blog =>
           data <~ await (stringify_document blog) ;
           pure (NextResponse_json data 200)
       end)
    (fun error =>
       _ <~ console_error "Error fetching blog:" error ;
       pure (json_error "Failed to fetch blog" 500)).

Definition PUT_blog (request : NextRequest) (id : string) : Eff NextResponse :=
  try_catch
    (session <~ await getSession ;
     if negb (bool_decide (is_Some session)) then
       pure (json_error "Unauthorized" 401)
     else
       _ <~ await connectDB ;
       body <~ await (request_json request) ;
       blog <~ await (Blog_findByIdAndUpdate id body) ;
       match blog with
       | None => pure (json_error "Blog not found" 404)
       | Some blog =>
           data <~ await (stringify_document blog) ;
           pure (NextResponse_json data 200)
       end)
    (fun error =>
       _ <~ console_error "Error updating blog:" error ;
       pure (json_error "Failed to update blog" 500)).

Definition DELETE_blog (request : NextRequest) (id : string) : Eff NextResponse :=
  try_catch
    (session <~ await getSession ;
     if negb (bool_decide (is_Some session)) then
       pure (json_error "Unauthorized" 401)
     else
       _ <~ await connectDB ;
       blog <~ await (Blog_findByIdAndDelete id) ;
       match blog with
       | None => pure (json_error "Blog not found" 404)
       | Some _ => pure (NextResponse_json JSON_success 200)
       end)
    (fun error =>
       _ <~ console_error "Error deleting blog:" error ;
       pure (json_error "Failed to delete blog" 500)).

(** *** api/admin/blogs/route.ts *)

Definition GET_blogs (request : NextRequest) : Eff NextResponse :=
  try_catch
    (session <~ await getSession ;
     if negb (bool_decide (is_Some session)) then
       pure (json_error "Unauthorized" 401)
     else
       _ <~ await connectDB ;
       blogs <~ await Blog_find_newest_first ;
       data <~ await (stringify_documents blogs) ;
       pure (NextResponse_json data 200))
    (fun error =>
       _ <~ console_error "Error fetching blogs:" error ;
       pure (json_error "Failed to fetch blogs" 500)).

Definition POST_blog (request : NextRequest) : Eff NextResponse :=
  try_catch
    (session <~ await getSession ;
     match session with
     | None => pure (json_error "Unauthorized" 401)
     | Some session =>
         _ <~ await connectDB ;
         body <~ await (request_json request) ;
         author <~ eval (session_user_id session) ;
         published <~ eval (read_published body) ;
         publishedAt <~ (if truthy_json published
                         then now <~ await new_Date ; pure (inr now)
                         else pure (inl JNull)) ;
         blog <~ await (Blog_new (blog_fields body author publishedAt)) ;
         blog <~ await (Blog_save blog) ;
         data <~ await (stringify_document blog) ;
         pure (NextResponse_json data 201)
     end)
    (fun error =>
       _ <~ console_error "Error creating blog:" error ;
       pure (json_error "Failed to create blog" 500)).

(** *** api/blogs/[slug]/route.ts *)

Definition GET_published (slug : string) : Eff NextResponse :=
  try_catch
    (_ <~ await connectDB ;
     blog <~ await (Blog_findOne_published slug) ;
     match blog with
     | None => pure (json_error "Blog not found" 404)
     | Some blog =>
         data <~ await (stringify_document blog) ;
         pure (NextResponse_json data 200)
     end)
    (fun error =>
       _ <~ console_error ("Failed to fetch blog with slug " ++ slug ++ ":") error ;
       pure (json_error "Failed to fetch blog" 500)).

(** *** api/auth/route.ts *)

Definition GET_imagekit_auth : Eff NextResponse :=
  try_catch
    (session <~ await getSession ;
     if negb (bool_decide (is_Some session)) then
       pure (json_error "Unauthorized" 401)
     else
       data <~ await imagekit_getAuthenticationParameters ;
       pure (NextResponse_json data 200))
    (fun error =>
       _ <~ console_error "ImageKit authentication error:" error ;
       pure (json_error "Authentication failed" 500)).

End Routes.

End Routes.

(** ** Vocabulary of the handler statements *)

Section HandlerVocabulary.

Import Api.

Context `{Backend}.

(** [tame P m]: running [m] leaves the error console alone, and what it
    returns satisfies [P]. *)
Definition tame {A} (P : A -> Prop) (m : Eff A) : Prop :=
  forall s o s', m s = (o, s') ->
    s'.2 = s.2 /\ forall a, o = Returned a -> P a.

Definition status_in (codes : list Z) (response : NextResponse) : Prop :=
  status response ∈ codes.

(** [handler] never throws; it answers with a status among [codes] and
    an untouched console, or with the 500 [message] after logging one
    line under [label]. *)
Definition contained (handler : Eff NextResponse) (codes : list Z)
    (label message : string) : Prop :=
  forall s, exists response s',
    handler s = (Returned response, s') /\
    ((s'.2 = s.2 /\ status_in codes response) \/
     (exists error,
        s'.2 = (s.2 ++ [(label, error)])%list /\
        response = json_error message 500)).

End HandlerVocabulary.

(** ** A backend held in memory, to run the handlers on *)

Module Sample.

Import Api.

Record Store : Type := mkStore {
  signed_in : option string;          (* the user id of the session, if any *)
  incoming : Json Z;                  (* the parsed body of the request *)
  posts : gmap string string          (* id to stored document *)
}.

Definition with_posts (w : Store) (p : gmap string string) : Store :=
  {| signed_in := signed_in w; incoming := incoming w; posts := p |}.

#[export] Instance backend : Backend := {|
  World := Store;
  Failure := string;
  Session := string;
  Document := string;
  Num := Z;
  Native := string;
  number_truthy := fun n => negb (n =? 0)%Z;
  TypeError_null := "TypeError";
  getSession := fun w => (Returned (signed_in w), w);
  session_user_id := fun user => Returned (inl (JString (Text.units user)));
  connectDB := fun w => (Returned tt, w);
  request_json := fun _ w => (Returned (incoming w), w);
  new_Date := fun w => (Returned "2025-01-01T00:00:00.000Z", w);
  Blog_findById := fun id w => (Returned (posts w !! id), w);
  Blog_findByIdAndUpdate := fun id _ w => (Returned (posts w !! id), w);
  Blog_findByIdAndDelete := fun id w =>
    (Returned (posts w !! id), with_posts w (delete id (posts w)));
  Blog_find_newest_first := fun w => (Returned (map snd (map_to_list (posts w))), w);
  Blog_findOne_published := fun slug w => (Returned (posts w !! slug), w);
  Blog_new := fun _ w => (Returned "{}", w);
  Blog_save := fun doc w => (Returned doc, with_posts w (<["new" := doc]> (posts w)));
  imagekit_getAuthenticationParameters := fun w => (Returned "{}", w);
  stringify_document := fun doc w => (Returned doc, w);
  stringify_documents := fun docs w => (Returned (String.concat "," docs), w)
|}.

(** Nobody is signed in; the request body is [null]. *)
Definition anonymous : Store :=
  {| signed_in := None; incoming := JNull; posts := {[ "42" := "{}" ]} |}.

(** A signed-in editor posting the body [null]. *)
Definition editor_posting_null : Store :=
  {| signed_in := Some "editor"; incoming := JNull; posts := ∅ |}.

(** Any request: the handlers read nothing of it but its body. *)
Definition request : NextRequest :=
  mkRequest (mkURL "https://blog.example" "/api/admin/blogs" "") ∅.

End Sample.

(** ** A backend that keeps what was constructed *)

Module Ledger.

Import Api.

(** A document is the very map the constructor was given. *)
Record Books : Type := mkBooks {
  user : option string;                               (* the session user *)
  sent : Json Z;                                      (* the request body *)
  shelf : list (gmap (list N) (Json Z + string))      (* saved documents *)
}.

#[export] Instance backend : Backend := {|
  World := Books;
  Failure := string;
  Session := string;
  Document := gmap (list N) (Json Z + string);
  Num := Z;
  Native := string;
  number_truthy := fun n => negb (n =? 0)%Z;
  TypeError_null := "TypeError";
  getSession := fun w => (Returned (user w), w);
  session_user_id := fun name => Returned (inl (JString (Text.units name)));
  connectDB := fun w => (Returned tt, w);
  request_json := fun _ w => (Returned (sent w), w);
  new_Date := fun w => (Returned "2025-01-01T00:00:00.000Z", w);
  Blog_findById := fun _ w => (Returned None, w);
  Blog_findByIdAndUpdate := fun _ _ w => (Returned None, w);
  Blog_findByIdAndDelete := fun _ w => (Returned None, w);
  Blog_find_newest_first := fun w => (Returned (shelf w), w);
  Blog_findOne_published := fun _ w => (Returned None, w);
  Blog_new := fun fields w => (Returned fields, w);
  Blog_save := fun doc w =>
    (Returned doc,
     {| user := user w; sent := sent w; shelf := (shelf w ++ [doc])%list |});
  imagekit_getAuthenticationParameters := fun w => (Returned "{}", w);
  stringify_document := fun _ w => (Returned "{}", w);
  stringify_documents := fun _ w => (Returned "[]", w)
|}.

(** The body of a post that names somebody else as its author. *)
Definition forged_body : Json Z :=
  JObject [(Text.units "title", JString (Text.units "Hello"));
           (Text.units "author", JString (Text.units "mallory"));
           (Text.units "published", JBool true)].

(** The editor is signed in and sends [forged_body]. *)
Definition editor_posting : Books :=
  {| user := Some "editor"; sent := forged_body; shelf := [] |}.

End Ledger.

(** ** Strings and truthiness *)

Section StringFacts.

Lemma startsWith_app (p rest : string) : startsWith (p ++ rest) p = true.
Proof.
  induction p as [|c p IH]; simpl; [reflexivity|].
  now rewrite Ascii.eqb_refl, IH.
Qed.

Lemma startsWith_split (s p : string) :
  startsWith s p = true -> exists rest, s = p ++ rest.
Proof.
  revert s; induction p as [|c p IH]; intros s H.
  - now exists s.
  - destruct s as [|d s]; simpl in H; [discriminate|].
    apply andb_prop in H as [Hc Hs].
    apply Ascii.eqb_eq in Hc; subst d.
    destruct (IH _ Hs) as [rest ->].
    now exists rest.
Qed.

Lemma startsWith_iff (s p : string) :
  startsWith s p = true <-> exists rest, s = p ++ rest.
Proof.
  split; [apply startsWith_split|].
  intros [rest ->]; apply startsWith_app.
Qed.

Lemma append_assoc (a b c : string) : (a ++ b) ++ c = a ++ (b ++ c).
Proof.
  induction a as [|x a IH]; [reflexivity|].
  change (String x ((a ++ b) ++ c) = String x (a ++ b ++ c)).
  now rewrite IH.
Qed.

Lemma append_same_nil (p rest : string) : p ++ rest = p -> rest = "".
Proof.
  induction p as [|x p IH]; intros H; [exact H|].
  change (String x (p ++ rest) = String x p) in H.
  injection H as H. now apply IH.
Qed.

Lemma startsWith_trans (s p q : string) :
  startsWith s p = true -> startsWith p q = true -> startsWith s q = true.
Proof.
  intros Hs Hp.
  apply startsWith_split in Hs as [r1 ->].
  apply startsWith_split in Hp as [r2 ->].
  rewrite append_assoc.
  apply startsWith_app.
Qed.

Lemma truthy_true (v : option string) :
  truthy v = true <-> exists token, v = Some token /\ token <> "".
Proof.
  destruct v as [t|]; simpl.
  - rewrite negb_true_iff, String.eqb_neq.
    split; [intros H; now exists t|].
    now intros [t' [[= <-] H]].
  - split; [discriminate|]. now intros [t [H _]].
Qed.

Lemma truthy_false (v : option string) :
  truthy v = false <-> v = None \/ v = Some "".
Proof.
  destruct v as [t|]; simpl.
  - rewrite negb_false_iff, String.eqb_eq.
    split; [intros ->; now right|].
    now intros [H|[= H]].
  - split; [now left|reflexivity].
Qed.

End StringFacts.

(** ** Classification of paths *)

Section Classification.

Lemma ui_not_api (path : string) :
  isAdminUIPath path = true -> isAdminApiPath path = false.
Proof.
  unfold isAdminUIPath, isAdminApiPath.
  intros H; apply andb_prop in H as [H _].
  apply startsWith_split in H as [rest ->].
  reflexivity.
Qed.

Lemma api_not_ui (path : string) :
  isAdminApiPath path = true -> isAdminUIPath path = false.
Proof.
  intros H; destruct (isAdminUIPath path) eqn:E; [|reflexivity].
  apply ui_not_api in E; congruence.
Qed.

Lemma api_login_public (path : string) :
  startsWith path "/api/admin/login" = true ->
  isAdminUIPath path = false /\ isAdminApiPath path = false.
Proof.
  intros H; unfold isAdminUIPath, isAdminApiPath; rewrite H.
  apply startsWith_split in H as [rest ->].
  now split.
Qed.

Lemma isAdminUIPath_true (path : string) :
  isAdminUIPath path = true <->
  startsWith path "/admin" = true /\ path <> "/admin/login".
Proof.
  unfold isAdminUIPath.
  now rewrite andb_true_iff, negb_true_iff, String.eqb_neq.
Qed.

Lemma isAdminApiPath_true (path : string) :
  isAdminApiPath path = true <->
  startsWith path "/api/admin" = true /\ startsWith path "/api/admin/login" = false.
Proof.
  unfold isAdminApiPath.
  now rewrite andb_true_iff, negb_true_iff.
Qed.

End Classification.

(** ** The gate, case by case *)

Section Gate.

Variable request : NextRequest.

Let path := pathname (nextUrl request).

Lemma isAuthenticated_present :
  isAuthenticated request = true <-> session_present (cookies request).
Proof. apply truthy_true. Qed.

Lemma isAuthenticated_missing :
  isAuthenticated request = false <-> session_missing (cookies request).
Proof. apply truthy_false. Qed.

Lemma middleware_public :
  isAdminUIPath path = false -> isAdminApiPath path = false ->
  middleware request = (next, []).
Proof.
  intros Hui Hapi; unfold middleware; fold path.
  now rewrite Hui, Hapi.
Qed.

Lemma middleware_api_denied :
  isAdminApiPath path = true -> isAuthenticated request = false ->
  middleware request = (unauthorized, [log_line path false]).
Proof.
  intros Hapi Hauth; unfold middleware; fold path.
  rewrite Hapi, Hauth, andb_false_r.
  reflexivity.
Qed.

Lemma middleware_ui_denied :
  isAdminUIPath path = true -> isAuthenticated request = false ->
  middleware request = (redirect (login_url request), [log_line path false]).
Proof.
  intros Hui Hauth; unfold middleware; fold path.
  rewrite Hui, (ui_not_api _ Hui), Hauth.
  reflexivity.
Qed.

Lemma middleware_authenticated :
  isAuthenticated request = true -> result (middleware request) = next.
Proof.
  intros Hauth; unfold middleware; fold path.
  rewrite Hauth.
  now destruct (negb (isAdminUIPath path) && negb (isAdminApiPath path)).
Qed.

Lemma middleware_protected_log :
  isAdminUIPath path = true \/ isAdminApiPath path = true ->
  output (middleware request) = [log_line path (isAuthenticated request)].
Proof.
  intros Hprot; unfold middleware; fold path.
  assert (negb (isAdminUIPath path) && negb (isAdminApiPath path) = false) as ->.
  { destruct Hprot as [-> | ->]; [reflexivity|apply andb_false_r]. }
  destruct (isAuthenticated request); simpl; [reflexivity|].
  destruct (isAdminApiPath path); [reflexivity|].
  now destruct (isAdminUIPath path).
Qed.

End Gate.

(** The whole gate as one equation: what is answered and what is
    printed, from the two path tests and the cookie test. *)
Lemma middleware_unfold (request : NextRequest) :
  let path := pathname (nextUrl request) in
  middleware request =
    if negb (isAdminUIPath path) && negb (isAdminApiPath path) then (next, [])
    else
      ((if isAuthenticated request then next
        else if isAdminApiPath path then unauthorized
        else if isAdminUIPath path then redirect (login_url request)
        else next),
       [log_line path (isAuthenticated request)]).
Proof.
  intros path; unfold middleware; fold path.
  destruct (negb (isAdminUIPath path) && negb (isAdminApiPath path)); [reflexivity|].
  destruct (isAuthenticated request); [reflexivity|].
  destruct (isAdminApiPath path); [reflexivity|].
  now destruct (isAdminUIPath path).
Qed.

Lemma decision_unauthorized :
  decision unauthorized =
  Reject 401 (json_text "{'error':'Unauthorized','code':'not_authenticated'}")
         (Some "application/json").
Proof. reflexivity. Qed.

(** ** Properties of the gate *)

(** The function's own prefix test has no boundary: were a path that
    continues [/admin] with anything but a separator handed to it, it
    would treat the path as protected-ui. *)
Lemma middleware_has_no_boundary
    (request : NextRequest) (c : ascii) (rest : string)
    (Hsep : c <> "/"%char)
    (Hpath : pathname (nextUrl request) = "/admin" ++ String c rest) :
  isAdminUIPath (pathname (nextUrl request)) = true /\
  isAdminApiPath (pathname (nextUrl request)) = false /\
  result (middleware request) =
    if isAuthenticated request then next else redirect (login_url request).
Proof.
  assert (Hui : isAdminUIPath (pathname (nextUrl request)) = true).
  { rewrite Hpath. apply isAdminUIPath_true. split.
    - apply (startsWith_app "/admin").
    - intros [= E _]. now apply Hsep. }
  split; [exact Hui|]. split; [now apply ui_not_api|].
  destruct (isAuthenticated request) eqn:Hauth.
  - now apply middleware_authenticated.
  - now rewrite middleware_ui_denied.
Qed.





(** C2.  A protected API path without a usable session cookie is
    answered 401 with the JSON error body and the JSON content type. *)
Theorem api_without_session_is_401
    (request : NextRequest)
    (Hprefix : startsWith (pathname (nextUrl request)) "/api/admin" = true)
    (Hlogin : startsWith (pathname (nextUrl request)) "/api/admin/login" = false)
    (Hjar : session_missing (cookies request)) :
  let response := result (middleware request) in
  response = unauthorized /\
  status response = 401 /\
  body response =
    Some (json_text "{'error':'Unauthorized','code':'not_authenticated'}") /\
  headers_get response "Content-Type" = Some "application/json".
Proof.
  intros response; subst response.
  rewrite middleware_api_denied.
  - repeat split; reflexivity.
  - now apply isAdminApiPath_true.
  - now apply isAuthenticated_missing.
Qed.

Lemma api_without_session_is_401_witness :
  status (result (middleware
            (mkRequest (mkURL "https://blog.example" "/api/admin/blogs" "") ∅))) = 401.
Proof.
  refine (proj1 (proj2 (api_without_session_is_401
           (mkRequest (mkURL "https://blog.example" "/api/admin/blogs" "") ∅)
           _ _ _))).
  - reflexivity.
  - reflexivity.
  - left; reflexivity.
Defined.

(** C3.  A protected UI path without a usable session cookie is
    redirected to [/admin/login] on the same origin, with no body. *)
Theorem ui_without_session_is_redirected
    (request : NextRequest)
    (Hprefix : startsWith (pathname (nextUrl request)) "/admin" = true)
    (Hlogin : pathname (nextUrl request) <> "/admin/login")
    (Hjar : session_missing (cookies request)) :
  let response := result (middleware request) in
  response = redirect (login_url request) /\
  pathname (login_url request) = "/admin/login" /\
  decision response = RedirectTo "/admin/login" /\
  headers_get response "Location"
    = Some (origin (url request) ++ "/admin/login") /\
  body response = None.
Proof.
  intros response; subst response.
  rewrite middleware_ui_denied.
  - repeat split; reflexivity.
  - now apply isAdminUIPath_true.
  - now apply isAuthenticated_missing.
Qed.

Lemma ui_without_session_is_redirected_witness :
  headers_get
    (result (middleware
       (mkRequest (mkURL "https://blog.example" "/admin/dashboard" "?tab=1")
                  {[ "session" := "" ]})))
    "Location"
  = Some "https://blog.example/admin/login".
Proof.
  refine (proj1 (proj2 (proj2 (proj2 (ui_without_session_is_redirected
           (mkRequest (mkURL "https://blog.example" "/admin/dashboard" "?tab=1")
                      {[ "session" := "" ]})
           _ _ _))))).
  - reflexivity.
  - discriminate.
  - right; reflexivity.
Defined.

(** C4.  Authenticated means exactly: a [session] cookie with a
    non-empty value.  On a protected path any non-empty value is let
    through, and a request without the cookie is treated like one whose
    cookie is empty. *)
Theorem presence_is_the_only_check
    (here : URL) (jar_token jar_none jar_empty : gmap string string)
    (token : string)
    (Hprotected : isAdminUIPath (pathname here) = true \/
                  isAdminApiPath (pathname here) = true)
    (Htoken : jar_token !! "session" = Some token)
    (Hnonempty : token <> "")
    (Hnone : jar_none !! "session" = None)
    (Hempty : jar_empty !! "session" = Some "") :
  (forall request,
     isAuthenticated request = true <-> session_present (cookies request)) /\
  result (middleware (mkRequest here jar_token)) = next /\
  middleware (mkRequest here jar_none) = middleware (mkRequest here jar_empty) /\
  result (middleware (mkRequest here jar_none)) =
    (if isAdminApiPath (pathname here) then unauthorized
     else redirect (mkURL (origin here) "/admin/login" "")).
Proof.
  split; [exact isAuthenticated_present|].
  split.
  { apply middleware_authenticated, isAuthenticated_present.
    now exists token. }
  assert (Hn : isAuthenticated (mkRequest here jar_none) = false).
  { apply isAuthenticated_missing; now left. }
  assert (He : isAuthenticated (mkRequest here jar_empty) = false).
  { apply isAuthenticated_missing; now right. }
  destruct Hprotected as [Hui | Hapi].
  - rewrite (ui_not_api _ Hui).
    now rewrite !middleware_ui_denied.
  - rewrite Hapi.
    now rewrite !middleware_api_denied.
Qed.

Lemma presence_is_the_only_check_witness :
  result (middleware
            (mkRequest (mkURL "https://blog.example" "/api/admin/blogs" "")
                       {[ "session" := "forged" ]})) = next /\
  middleware (mkRequest (mkURL "https://blog.example" "/api/admin/blogs" "")
                        {[ "theme" := "dark" ]})
  = middleware (mkRequest (mkURL "https://blog.example" "/api/admin/blogs" "")
                          {[ "session" := "" ]}).
Proof.
  pose proof (presence_is_the_only_check
                (mkURL "https://blog.example" "/api/admin/blogs" "")
                {[ "session" := "forged" ]} {[ "theme" := "dark" ]}
                {[ "session" := "" ]} "forged") as H.
  destruct H as (_ & Hpass & Hsame & _).
  - right; reflexivity.
  - reflexivity.
  - discriminate.
  - reflexivity.
  - reflexivity.
  - split; [exact Hpass | exact Hsame].
Defined.

(** C5.  The login page itself passes whatever the cookies are, and
    since every redirect of the gate points at that page, the request
    that follows a redirect is never redirected again. *)
Theorem login_page_passes
    (request : NextRequest)
    (Hpath : pathname (nextUrl request) = "/admin/login") :
  middleware request = (next, []) /\
  forall (redirected : NextRequest) (jar : gmap string string),
    middleware (mkRequest (login_url redirected) jar) = (next, []).
Proof.
  assert (Hlogin : forall r, pathname (nextUrl r) = "/admin/login" ->
                             middleware r = (next, [])).
  { intros r Hr; apply middleware_public; now rewrite Hr. }
  split; [now apply Hlogin|].
  intros redirected jar; now apply Hlogin.
Qed.

Lemma login_page_passes_witness :
  middleware (mkRequest (mkURL "https://blog.example" "/admin/login" "")
                        {[ "session" := "" ]}) = (next, []).
Proof.
  refine (proj1 (login_page_passes
           (mkRequest (mkURL "https://blog.example" "/admin/login" "")
                      {[ "session" := "" ]}) _)).
  reflexivity.
Defined.

(** C6.  Every path that starts with [/api/admin/login] passes whatever
    the cookies are. *)
Theorem api_login_passes
    (request : NextRequest)
    (Hpath : startsWith (pathname (nextUrl request)) "/api/admin/login" = true) :
  middleware request = (next, []).
Proof.
  destruct (api_login_public _ Hpath) as [Hui Hapi].
  now apply middleware_public.
Qed.

Lemma api_login_passes_witness :
  middleware (mkRequest (mkURL "https://blog.example" "/api/admin/login" "") ∅)
  = (next, []).
Proof.
  apply (api_login_passes
           (mkRequest (mkURL "https://blog.example" "/api/admin/login" "") ∅)).
  reflexivity.
Defined.

(** C7.  A path that is neither protected-ui nor protected-api passes,
    with nothing printed, whatever the cookies are. *)
Theorem public_path_passes
    (request : NextRequest)
    (Hui : isAdminUIPath (pathname (nextUrl request)) = false)
    (Hapi : isAdminApiPath (pathname (nextUrl request)) = false) :
  middleware request = (next, []) /\
  decision (result (middleware request)) = PassThrough.
Proof.
  rewrite middleware_public by assumption.
  now split.
Qed.

Lemma public_path_passes_witness :
  middleware (mkRequest (mkURL "https://blog.example" "/blog/hello-world" "")
                        {[ "session" := "abc" ]}) = (next, []).
Proof.
  refine (proj1 (public_path_passes
           (mkRequest (mkURL "https://blog.example" "/blog/hello-world" "")
                      {[ "session" := "abc" ]}) _ _)).
  - reflexivity.
  - reflexivity.
Defined.

(** C8.  The gate answers every request, and its answer is one of three
    mutually distinct decisions: pass, the 401 JSON error, or the
    redirect to the login page. *)
Theorem middleware_total (request : NextRequest) :
  exists (response : NextResponse) (printed : list string),
    middleware request = (response, printed) /\
    (response = next \/ response = unauthorized \/
     response = redirect (login_url request)) /\
    decision response ∈ outcomes /\
    NoDup outcomes.
Proof.
  exists (result (middleware request)), (output (middleware request)).
  split; [now destruct (middleware request)|].
  assert (Hcases : result (middleware request) = next \/
                   result (middleware request) = unauthorized \/
                   result (middleware request) = redirect (login_url request)).
  { rewrite middleware_unfold; cbv zeta.
    destruct (negb _ && negb _); [now left|].
    destruct (isAuthenticated request); [now left|].
    destruct (isAdminApiPath _); [now right; left|].
    destruct (isAdminUIPath _); [now right; right|now left]. }
  split; [exact Hcases|]. split.
  - destruct Hcases as [-> | [-> | ->]]; unfold outcomes.
    + apply list_elem_of_here.
    + rewrite decision_unauthorized.
      apply list_elem_of_further, list_elem_of_here.
    + do 2 apply list_elem_of_further. apply list_elem_of_here.
  - unfold outcomes.
    repeat (apply NoDup_cons; split); try apply NoDup_nil_2;
      rewrite ?elem_of_cons, elem_of_nil; intros H;
      repeat (destruct H as [H | H]; [discriminate H|]); exact H.
Qed.

(** C9.  The answer depends on the path and on whether a non-empty
    [session] cookie is there, and on nothing else in the cookie jar:
    two requests for the same path that agree on that presence get the
    same decision and print the same line; if they also came in on the
    same origin the responses are equal. *)
Theorem decision_from_path_and_presence
    (first second : NextRequest)
    (Hpath : pathname (nextUrl first) = pathname (nextUrl second))
    (Hpresence : session_present (cookies first) <->
                 session_present (cookies second)) :
  decision (result (middleware first)) = decision (result (middleware second)) /\
  output (middleware first) = output (middleware second) /\
  (origin (nextUrl first) = origin (nextUrl second) ->
   middleware first = middleware second).
Proof.
  assert (Hauth : isAuthenticated first = isAuthenticated second).
  { rewrite <- !isAuthenticated_present in Hpresence.
    destruct (isAuthenticated first), (isAuthenticated second);
      try reflexivity; destruct Hpresence as [H1 H2].
    - symmetry; now apply H1.
    - now apply H2. }
  rewrite !middleware_unfold; cbv zeta.
  rewrite Hpath, Hauth.
  destruct (negb _ && negb _); [now repeat split|].
  destruct (isAuthenticated second); [now repeat split|].
  destruct (isAdminApiPath _); [now repeat split|].
  destruct (isAdminUIPath _); [|now repeat split].
  repeat split.
  unfold login_url, url; now intros ->.
Qed.

Lemma decision_from_path_and_presence_witness :
  decision (result (middleware
     (mkRequest (mkURL "https://blog.example" "/admin/dashboard" "")
                {[ "session" := "token-a" ]})))
  = decision (result (middleware
     (mkRequest (mkURL "https://other.example" "/admin/dashboard" "?page=2")
                (<[ "theme" := "dark" ]> {[ "session" := "token-b" ]})))).
Proof.
  refine (proj1 (decision_from_path_and_presence
     (mkRequest (mkURL "https://blog.example" "/admin/dashboard" "")
                {[ "session" := "token-a" ]})
     (mkRequest (mkURL "https://other.example" "/admin/dashboard" "?page=2")
                (<[ "theme" := "dark" ]> {[ "session" := "token-b" ]}))
     _ _)).
  - reflexivity.
  - split; intros _.
    + exists "token-b"; split; [reflexivity|discriminate].
    + exists "token-a"; split; [reflexivity|discriminate].
Defined.

(** C10.  On the UI side only the exact login path is exempt: any
    longer path that starts with [/admin/login] is protected-ui and is
    redirected when there is no usable session cookie, while on the API
    side everything that starts with [/api/admin/login] is exempt. *)
Theorem only_exact_ui_login_is_exempt
    (host query rest : string) (jar : gmap string string)
    (Hrest : rest <> "")
    (Hjar : session_missing jar) :
  isAdminUIPath ("/admin/login" ++ rest) = true /\
  result (middleware (mkRequest (mkURL host ("/admin/login" ++ rest) query) jar))
    = redirect (mkURL host "/admin/login" "") /\
  isAdminApiPath ("/api/admin/login" ++ rest) = false /\
  middleware (mkRequest (mkURL host ("/api/admin/login" ++ rest) query) jar)
    = (next, []) /\
  (forall path, startsWith path "/admin" = true ->
                (isAdminUIPath path = false <-> path = "/admin/login")).
Proof.
  assert (Hui : isAdminUIPath ("/admin/login" ++ rest) = true).
  { apply isAdminUIPath_true; split.
    - apply startsWith_trans with (p := "/admin/login"); [|reflexivity].
      apply startsWith_app.
    - intros E; now apply append_same_nil in E. }
  split; [exact Hui|]. split.
  { rewrite middleware_ui_denied; [reflexivity|exact Hui|].
    now apply isAuthenticated_missing. }
  split.
  { apply (api_login_public ("/api/admin/login" ++ rest)), startsWith_app. }
  split.
  { apply api_login_passes, (startsWith_app "/api/admin/login"). }
  intros path Hprefix; unfold isAdminUIPath; rewrite Hprefix; simpl.
  now rewrite negb_false_iff, String.eqb_eq.
Qed.

Lemma only_exact_ui_login_is_exempt_witness :
  result (middleware
     (mkRequest (mkURL "https://blog.example" "/admin/login/reset" "") ∅))
  = redirect (mkURL "https://blog.example" "/admin/login" "").
Proof.
  refine (proj1 (proj2 (only_exact_ui_login_is_exempt
     "https://blog.example" "" "/reset" ∅ _ _))).
  - discriminate.
  - left; reflexivity.
Defined.

(** ** More on the gate: exactly when it passes, refuses and prints *)

Section GateExact.

Variable request : NextRequest.

Let path := pathname (nextUrl request).

Lemma middleware_result :
  result (middleware request) =
    if isAuthenticated request then next
    else if isAdminApiPath path then unauthorized
    else if isAdminUIPath path then redirect (login_url request)
    else next.
Proof.
  rewrite middleware_unfold; cbv zeta; fold path.
  destruct (isAdminUIPath path), (isAdminApiPath path); simpl; try reflexivity.
  now destruct (isAuthenticated request).
Qed.

Lemma middleware_output :
  output (middleware request) =
    if isAdminUIPath path || isAdminApiPath path
    then [log_line path (isAuthenticated request)] else [].
Proof.
  rewrite middleware_unfold; cbv zeta; fold path.
  now destruct (isAdminUIPath path), (isAdminApiPath path).
Qed.

(** X1.  The gate lets a request through exactly when the path is
    public or a non-empty session cookie is there: no protected path is
    ever passed without one. *)
Theorem passes_iff :
  result (middleware request) = next <->
  (isAdminUIPath path = false /\ isAdminApiPath path = false) \/
  session_present (cookies request).
Proof.
  rewrite <- isAuthenticated_present, middleware_result.
  destruct (isAuthenticated request); [tauto|].
  destruct (isAdminApiPath path).
  { split; [discriminate|]. intros [[_ H] | H]; discriminate H. }
  destruct (isAdminUIPath path).
  { split; [discriminate|]. intros [[H _] | H]; discriminate H. }
  tauto.
Qed.

(** X2.  The 401 answer is given exactly to protected API paths without
    a usable session cookie, and a redirect exactly to protected UI
    paths without one; the redirect always points at the login page of
    the request's origin. *)
Theorem refusals_iff :
  (result (middleware request) = unauthorized <->
   isAdminApiPath path = true /\ session_missing (cookies request)) /\
  (forall target,
     result (middleware request) = redirect target <->
     target = login_url request /\
     isAdminUIPath path = true /\ session_missing (cookies request)).
Proof.
  cut ((result (middleware request) = unauthorized <->
        isAdminApiPath path = true /\ isAuthenticated request = false) /\
       (forall target,
          result (middleware request) = redirect target <->
          target = login_url request /\
          isAdminUIPath path = true /\ isAuthenticated request = false)).
  { intros [Hapi Hui]; split; [|intros target];
      rewrite <- isAuthenticated_missing; [exact Hapi|apply Hui]. }
  rewrite middleware_result.
  pose proof (ui_not_api path) as Hexcl.
  destruct (isAuthenticated request).
  { split; [|intros target]; (split; [discriminate|]).
    - intros [_ H]; discriminate H.
    - intros (_ & _ & H); discriminate H. }
  destruct (isAdminApiPath path).
  { split; [tauto|]. intros target; split; [discriminate|].
    intros (_ & Hui & _). specialize (Hexcl Hui). discriminate Hexcl. }
  destruct (isAdminUIPath path).
  - split; [split; [discriminate|intros [H _]; discriminate H]|].
    intros target; split.
    + intros [= <-]. tauto.
    + now intros (-> & _).
  - split; [|intros target]; (split; [discriminate|]).
    + intros [H _]; discriminate H.
    + intros (_ & H & _); discriminate H.
Qed.

(** X3.  The gate prints nothing for a public path and exactly one line
    for a protected one; the line names the path and says [Auth: Yes]
    exactly when the request is let through. *)
Theorem console_line :
  (output (middleware request) = [] <->
   isAdminUIPath path = false /\ isAdminApiPath path = false) /\
  (forall line, line ∈ output (middleware request) ->
     output (middleware request) = [line] /\
     (line = log_line path true <-> result (middleware request) = next)).
Proof.
  assert (Hdiff : log_line path false <> log_line path true).
  { unfold log_line. intros E.
    do 2 apply (inj (String.app _)) in E. discriminate E. }
  rewrite middleware_output, middleware_result.
  pose proof (ui_not_api path) as Hexcl.
  destruct (isAdminUIPath path), (isAdminApiPath path); simpl;
    try (specialize (Hexcl eq_refl); discriminate Hexcl).
  1, 2: split; [split; [discriminate|intros [H1 H2]; discriminate]|];
    intros line Hin; apply list_elem_of_singleton in Hin as ->;
    (split; [reflexivity|]);
    destruct (isAuthenticated request); split; intros H;
      try reflexivity; try discriminate H; now apply Hdiff in H.
  split; [tauto|].
  intros line Hin; now apply elem_of_nil in Hin.
Qed.

End GateExact.

(** ** Trimming, splitting and joining *)

Section TextFacts.

Import Text.
Local Open Scope list_scope.

Lemma trimStart_split (s : list N) :
  exists w, s = w ++ trimStart s /\ blank w.
Proof.
  induction s as [|c s (w & Hs & Hw)].
  { exists []; split; [reflexivity|constructor]. }
  simpl; destruct (isWhiteSpace c) eqn:Hc.
  - exists (c :: w); split; [simpl; congruence|now constructor].
  - exists []; split; [reflexivity|constructor].
Qed.

Lemma trimStart_head (s r : list N) (c : N) :
  trimStart s = c :: r -> isWhiteSpace c = false.
Proof.
  induction s as [|d s IH]; simpl; [discriminate|].
  destruct (isWhiteSpace d) eqn:Hd; [exact IH|].
  now intros [= <- _].
Qed.

Lemma trimStart_fixed (s : list N) :
  (forall c r, s = c :: r -> isWhiteSpace c = false) -> trimStart s = s.
Proof.
  destruct s as [|c r]; [reflexivity|].
  intros H; simpl; now rewrite (H c r eq_refl).
Qed.

Lemma trimStart_idem (s : list N) : trimStart (trimStart s) = trimStart s.
Proof.
  apply trimStart_fixed; intros c r; apply trimStart_head.
Qed.

Lemma trimStart_nil (s : list N) : trimStart s = [] <-> blank s.
Proof.
  unfold blank; induction s as [|c s IH]; simpl; [now split|].
  destruct (isWhiteSpace c) eqn:Hc.
  - rewrite IH; split; [now constructor|now inversion 1].
  - split; [discriminate|]. inversion 1; congruence.
Qed.

Lemma trimStart_elem (s : list N) (x : N) : x ∈ trimStart s -> x ∈ s.
Proof.
  destruct (trimStart_split s) as (w & Hs & _).
  intros Hx; rewrite Hs; apply elem_of_app; now right.
Qed.

Lemma trimEnd_split (s : list N) :
  exists w, s = trimEnd s ++ w /\ blank w.
Proof.
  destruct (trimStart_split (reverse s)) as (w & Hs & Hw).
  exists (reverse w); split; [|now apply Forall_reverse].
  unfold trimEnd; rewrite <- reverse_app, <- Hs.
  now rewrite reverse_involutive.
Qed.

Lemma trimEnd_nil (s : list N) : trimEnd s = [] <-> blank s.
Proof.
  unfold trimEnd, blank.
  rewrite <- (Forall_reverse _ s), <- (trimStart_nil (reverse s)).
  split; [|now intros ->].
  intros H; apply (f_equal reverse) in H.
  now rewrite reverse_involutive in H.
Qed.

Lemma trimEnd_idem (s : list N) : trimEnd (trimEnd s) = trimEnd s.
Proof.
  unfold trimEnd; now rewrite reverse_involutive, trimStart_idem.
Qed.

Lemma trimEnd_elem (s : list N) (x : N) : x ∈ trimEnd s -> x ∈ s.
Proof.
  unfold trimEnd; rewrite elem_of_reverse; intros H.
  apply trimStart_elem in H; now apply elem_of_reverse.
Qed.

Lemma trim_nil (s : list N) : trim s = [] <-> blank s.
Proof.
  unfold trim; rewrite trimEnd_nil.
  destruct (trimStart_split s) as (w & Hs & Hw).
  unfold blank in *; split; intros H.
  - rewrite Hs; now apply Forall_app.
  - rewrite Hs in H; now apply Forall_app in H.
Qed.

Lemma trim_elem (s : list N) (x : N) : x ∈ trim s -> x ∈ s.
Proof.
  unfold trim; intros H; now apply trimStart_elem, trimEnd_elem.
Qed.

Lemma trim_idem (s : list N) : trim (trim s) = trim s.
Proof.
  unfold trim.
  assert (Hfix : trimStart (trimEnd (trimStart s)) = trimEnd (trimStart s)).
  { apply trimStart_fixed; intros c r Hcr.
    destruct (trimEnd_split (trimStart s)) as (w & Hs & _).
    rewrite Hcr in Hs; simpl in Hs.
    now apply trimStart_head in Hs. }
  now rewrite Hfix, trimEnd_idem.
Qed.

Lemma Boolean_false (s : list N) : Boolean s = false <-> s = [].
Proof. now destruct s. Qed.

Lemma Boolean_trim (s : list N) : Boolean (trim s) = false <-> blank s.
Proof. now rewrite Boolean_false, trim_nil. Qed.

Lemma split_pieces (sep : N) (s : list N) :
  Forall (fun piece => sep ∉ piece) (split sep s).
Proof.
  induction s as [|c s IH]; simpl.
  - constructor; [apply not_elem_of_nil|constructor].
  - destruct (N.eqb_spec c sep) as [->|Hne].
    + constructor; [apply not_elem_of_nil|exact IH].
    + destruct (split sep s) as [|piece pieces].
      * constructor; [|constructor].
        intros H; apply list_elem_of_singleton in H; congruence.
      * inversion IH as [|? ? Hp Hps]; subst.
        constructor; [|exact Hps].
        intros H; apply elem_of_cons in H as [H|H]; [congruence|now apply Hp].
Qed.

Lemma split_whole (sep : N) (s : list N) : sep ∉ s -> split sep s = [s].
Proof.
  induction s as [|c s IH]; [reflexivity|].
  intros H; apply not_elem_of_cons in H as [Hne Hs]; simpl.
  destruct (N.eqb_spec c sep) as [->|_]; [congruence|].
  now rewrite (IH Hs).
Qed.

Lemma split_at (sep : N) (a b : list N) :
  sep ∉ a -> split sep (a ++ sep :: b) = a :: split sep b.
Proof.
  induction a as [|c a IH]; intros H; simpl.
  - now rewrite N.eqb_refl.
  - apply not_elem_of_cons in H as [Hne Ha].
    destruct (N.eqb_spec c sep) as [->|_]; [congruence|].
    now rewrite (IH Ha).
Qed.

Lemma split_joined (t : list N) (l : list (list N)) :
  Forall (fun piece => 44%N ∉ piece) (t :: l) ->
  split 44 (join [44; 32]%N (t :: l)) = t :: map (cons 32%N) l.
Proof.
  revert t; induction l as [|u l IH]; intros t Hall.
  - inversion Hall; subst; now apply split_whole.
  - inversion Hall as [|? ? Ht Hrest]; subst.
    change (join [44; 32]%N (t :: u :: l))
      with (t ++ 44%N :: 32%N :: join [44; 32]%N (u :: l)).
    rewrite (split_at _ _ _ Ht).
    change (split 44 (32%N :: join [44; 32]%N (u :: l)))
      with (match split 44 (join [44; 32]%N (u :: l)) with
            | piece :: pieces => (32%N :: piece) :: pieces
            | [] => [[32%N]]
            end).
    now rewrite (IH u Hrest).
Qed.

End TextFacts.

(** ** The tag field *)

Section Tags.

Import Text BlogForm.
Local Open Scope list_scope.

Lemma trim_clean (t : list N) : clean_tag t -> trim (32%N :: t) = t.
Proof. now intros (_ & _ & Ht). Qed.

Lemma filter_all_true {A} (keep : A -> bool) (l : list A) :
  Forall (fun x => keep x = true) l -> List.filter keep l = l.
Proof.
  induction 1 as [|x l Hx _ IH]; simpl; [reflexivity|].
  now rewrite Hx, IH.
Qed.

Lemma clean_Boolean (t : list N) : clean_tag t -> Boolean t = true.
Proof. intros (Hne & _); now destruct t. Qed.

Lemma parseTags_all_clean (field : list N) :
  Forall clean_tag (parseTags field).
Proof.
  apply Forall_forall; intros t Ht.
  apply list_elem_of_In, filter_In in Ht as [Ht Hne].
  apply in_map_iff in Ht as (piece & <- & Hpiece).
  pose proof (split_pieces 44 field) as Hall.
  rewrite Forall_forall in Hall.
  apply list_elem_of_In in Hpiece; specialize (Hall piece Hpiece).
  split; [|split].
  - intros E; rewrite E in Hne; discriminate Hne.
  - intros Hin; now apply Hall, trim_elem.
  - apply trim_idem.
Qed.

Lemma parse_format_clean (stored : list (list N)) :
  Forall clean_tag stored -> parseTags (formatTags (Some stored)) = stored.
Proof.
  intros Hclean.
  destruct stored as [|t l]; [reflexivity|].
  unfold parseTags, formatTags.
  rewrite split_joined.
  - inversion Hclean as [|? ? Ht Hl]; subst.
    assert (Hmap : map trim (t :: map (cons 32%N) l) = t :: l).
    { simpl; f_equal; [apply Ht|].
      clear Hclean Ht; induction Hl as [|u l Hu _ IH]; [reflexivity|].
      simpl; f_equal; [exact (trim_clean u Hu)|exact IH]. }
    rewrite Hmap; apply filter_all_true.
    eapply Forall_impl; [exact Hclean|]; exact clean_Boolean.
  - eapply Forall_impl; [exact Hclean|]. now intros u (_ & Hu & _).
Qed.

(** X4.  Every tag sent on submit is non-empty, contains no comma and
    has no white space at either end, whatever was typed in the tags
    field. *)
Theorem parseTags_clean (field : list N) :
  Forall clean_tag (parseTags field).
Proof. apply parseTags_all_clean. Qed.

(** X5.  Loading a post into the edit form and submitting the tags
    field untouched sends back the stored tags, in order, provided each
    stored tag is clean; a post whose tags are not an array is sent
    back with no tags. *)
Theorem tags_round_trip (stored : list (list N))
    (Hclean : Forall clean_tag stored) :
  parseTags (formatTags (Some stored)) = stored /\
  parseTags (formatTags None) = [].
Proof. split; [now apply parse_format_clean|reflexivity]. Qed.

Lemma tags_round_trip_witness :
  parseTags (formatTags (Some [units "next js"; units "react"]))
  = [units "next js"; units "react"].
Proof.
  refine (proj1 (tags_round_trip [units "next js"; units "react"] _)).
  constructor; [|constructor; [|constructor]];
    (split; [discriminate|split; [|reflexivity]]);
    apply (bool_decide_unpack _); vm_compute; exact I.
Defined.

(** X6.  Saving is stable: what one submit stores is what the next
    load-and-submit of the same post stores again. *)
Theorem tags_resubmit_stable (field : list N) :
  parseTags (formatTags (Some (parseTags field))) = parseTags field.
Proof. apply parse_format_clean, parseTags_all_clean. Qed.

End Tags.

(** ** Validation of the form *)

Section Validation.

Import Text BlogForm.
Local Open Scope list_scope.

Variable st : PageState.

Lemma flag_empty (cond : bool) (key message : string) (errors : gmap string string) :
  (if cond then <[key := message]> errors else errors) = ∅ <->
  cond = false /\ errors = ∅.
Proof.
  destruct cond.
  - split; [intros H; now apply insert_non_empty in H|intros [H _]; discriminate H].
  - tauto.
Qed.

Lemma cover_missing :
  negb (bool_decide (is_Some (imageFile st))) && negb (Boolean (coverImage (formData st)))
    = false <->
  is_Some (imageFile st) \/ coverImage (formData st) <> [].
Proof.
  rewrite andb_false_iff, !negb_false_iff, bool_decide_eq_true.
  destruct (coverImage (formData st)); simpl; split; intros [H|H]; auto;
    try discriminate; congruence.
Qed.

Lemma formErrors_empty :
  formErrors st = ∅ <->
  ~ blank (title (formData st)) /\ ~ blank (slug (formData st)) /\
  ~ blank (content (formData st)) /\ ~ blank (excerpt (formData st)) /\
  (is_Some (imageFile st) \/ coverImage (formData st) <> []).
Proof.
  unfold formErrors; cbv zeta.
  rewrite !flag_empty, cover_missing, !negb_false_iff.
  rewrite <- !Boolean_trim, !not_false_iff_true.
  tauto.
Qed.

(** X7.  The form is accepted exactly when title, slug, content and
    excerpt each contain something other than white space and there is
    a cover image: a picked file or a non-empty image address. *)
Theorem validateForm_accepts :
  (validateForm st).1 = true <->
  ~ blank (title (formData st)) /\ ~ blank (slug (formData st)) /\
  ~ blank (content (formData st)) /\ ~ blank (excerpt (formData st)) /\
  (is_Some (imageFile st) \/ coverImage (formData st) <> []).
Proof.
  rewrite <- formErrors_empty; unfold validateForm; simpl.
  now rewrite Nat.eqb_eq, map_size_empty_iff.
Qed.

Lemma flag_lookup_ne (cond : bool) (key other message : string)
    (errors : gmap string string) :
  key <> other ->
  (if cond then <[key := message]> errors else errors) !! other = errors !! other.
Proof. intros Hne; destruct cond; [now apply lookup_insert_ne|reflexivity]. Qed.

Lemma flag_lookup (cond : bool) (key message : string)
    (errors : gmap string string) :
  errors !! key = None ->
  (if cond then <[key := message]> errors else errors) !! key
  = if cond then Some message else None.
Proof. intros Hnone; destruct cond; [apply lookup_insert_eq|exact Hnone]. Qed.

Lemma flag_is_Some (cond : bool) (key other message : string)
    (errors : gmap string string) :
  is_Some ((if cond then <[key := message]> errors else errors) !! other) ->
  other = key \/ is_Some (errors !! other).
Proof.
  destruct cond; [|now right].
  destruct (decide (key = other)) as [->|Hne]; [now left|].
  rewrite lookup_insert_ne by exact Hne; now right.
Qed.

Lemma flagged_iff (passes : bool) (message : string) (P : Prop) :
  (passes = false <-> P) ->
  (if negb passes then Some message else None) = Some message <-> P.
Proof.
  destruct passes; simpl; intros [H1 H2]; split; intros H.
  - discriminate H.
  - specialize (H2 H); discriminate H2.
  - now apply H1.
  - reflexivity.
Qed.

Lemma flagged_none_iff (passes : bool) (message : string) (P : Prop) :
  (passes = false <-> P) ->
  (if negb passes then Some message else None) = None <-> ~ P.
Proof.
  destruct passes; simpl; intros [H1 H2]; split; intros H.
  - intros HP; specialize (H2 HP); discriminate H2.
  - reflexivity.
  - discriminate H.
  - exfalso; now apply H, H1.
Qed.

Lemma flag_message (cond : bool) (expected message : string) :
  (if cond then Some expected else None) = Some message ->
  message = expected /\ cond = true.
Proof. destruct cond; [now intros [= <-]|discriminate]. Qed.

(** What [validateForm] stores under each of its five keys. *)
Lemma formErrors_lookups :
  let form := formData st in
  formErrors st !! "title"
    = (if negb (Boolean (trim (title form)))
       then Some "Title is required" else None) /\
  formErrors st !! "slug"
    = (if negb (Boolean (trim (slug form)))
       then Some "Slug is required" else None) /\
  formErrors st !! "content"
    = (if negb (Boolean (trim (content form)))
       then Some "Content is required" else None) /\
  formErrors st !! "excerpt"
    = (if negb (Boolean (trim (excerpt form)))
       then Some "Excerpt is required" else None) /\
  formErrors st !! "coverImage"
    = (if negb (bool_decide (is_Some (imageFile st)))
          && negb (Boolean (coverImage form))
       then Some "Cover image is required" else None).
Proof.
  unfold formErrors; cbv zeta.
  repeat split;
    rewrite ?flag_lookup_ne by discriminate;
    apply flag_lookup;
    rewrite ?flag_lookup_ne by discriminate; apply lookup_empty.
Qed.

Lemma formErrors_keys (key : string) :
  is_Some (formErrors st !! key) ->
  key ∈ ["title"; "slug"; "content"; "excerpt"; "coverImage"]%string.
Proof.
  unfold formErrors; cbv zeta; intros H.
  repeat (apply flag_is_Some in H as [-> | H]; [set_solver|]).
  rewrite lookup_empty in H; now destruct H.
Qed.

Lemma cover_required :
  negb (bool_decide (is_Some (imageFile st)))
    && negb (Boolean (coverImage (formData st))) = true <->
  imageFile st = None /\ coverImage (formData st) = [].
Proof.
  rewrite andb_true_iff, !negb_true_iff, bool_decide_eq_false.
  split.
  - intros [Hfile Hcover]; split.
    + destruct (imageFile st) as [file|]; [|reflexivity].
      exfalso; apply Hfile; now exists file.
    + now apply Boolean_false.
  - intros [-> ->]; split; [intros [? ?]; discriminate|reflexivity].
Qed.

(** X8.  After validation the displayed errors are exactly those of the
    fields that fail, each under its own key and with its own message:
    a failing field has its message, a passing field has no entry, no
    other key has one, and whatever was displayed before is gone. *)
Theorem validateForm_errors :
  let shown := validationErrors (validateForm st).2 in
  (shown !! "title" = Some "Title is required" <-> blank (title (formData st))) /\
  (shown !! "slug" = Some "Slug is required" <-> blank (slug (formData st))) /\
  (shown !! "content" = Some "Content is required"
     <-> blank (content (formData st))) /\
  (shown !! "excerpt" = Some "Excerpt is required"
     <-> blank (excerpt (formData st))) /\
  (shown !! "coverImage" = Some "Cover image is required"
     <-> imageFile st = None /\ coverImage (formData st) = []) /\
  (forall key, is_Some (shown !! key) ->
     key ∈ ["title"; "slug"; "content"; "excerpt"; "coverImage"]%string) /\
  (forall earlier,
     validationErrors (validateForm (setValidationErrors (fun _ => earlier) st)).2
     = shown) /\
  (shown !! "title" = None <-> ~ blank (title (formData st))) /\
  (shown !! "slug" = None <-> ~ blank (slug (formData st))) /\
  (shown !! "content" = None <-> ~ blank (content (formData st))) /\
  (shown !! "excerpt" = None <-> ~ blank (excerpt (formData st))) /\
  (shown !! "coverImage" = None
     <-> is_Some (imageFile st) \/ coverImage (formData st) <> []) /\
  (forall key message,
     shown !! key = Some message <->
     (key = "title" /\ message = "Title is required"
        /\ blank (title (formData st))) \/
     (key = "slug" /\ message = "Slug is required"
        /\ blank (slug (formData st))) \/
     (key = "content" /\ message = "Content is required"
        /\ blank (content (formData st))) \/
     (key = "excerpt" /\ message = "Excerpt is required"
        /\ blank (excerpt (formData st))) \/
     (key = "coverImage" /\ message = "Cover image is required"
        /\ imageFile st = None /\ coverImage (formData st) = [])).
Proof.
  cbv zeta; unfold validateForm; simpl.
  destruct formErrors_lookups as (Ht & Hs & Hc & He & Hv).
  assert (Xt := flagged_iff _ "Title is required" _
                  (Boolean_trim (title (formData st)))).
  assert (Xs := flagged_iff _ "Slug is required" _
                  (Boolean_trim (slug (formData st)))).
  assert (Xc := flagged_iff _ "Content is required" _
                  (Boolean_trim (content (formData st)))).
  assert (Xe := flagged_iff _ "Excerpt is required" _
                  (Boolean_trim (excerpt (formData st)))).
  assert (Xv : formErrors st !! "coverImage" = Some "Cover image is required"
               <-> imageFile st = None /\ coverImage (formData st) = []).
  { rewrite Hv, <- cover_required.
    destruct (negb _ && negb _); split; intros H;
      try reflexivity; try discriminate H. }
  rewrite <- Ht in Xt; rewrite <- Hs in Xs; rewrite <- Hc in Xc;
    rewrite <- He in Xe.
  refine (conj Xt (conj Xs (conj Xc (conj Xe (conj Xv
            (conj formErrors_keys (conj (fun _ => eq_refl) _))))))).
  refine (conj _ (conj _ (conj _ (conj _ (conj _ _))))).
  - rewrite Ht; apply flagged_none_iff, Boolean_trim.
  - rewrite Hs; apply flagged_none_iff, Boolean_trim.
  - rewrite Hc; apply flagged_none_iff, Boolean_trim.
  - rewrite He; apply flagged_none_iff, Boolean_trim.
  - rewrite Hv, <- cover_missing.
    destruct (negb _ && negb _); split; intros H;
      try reflexivity; try discriminate H.
  - intros key message; split.
    + intros Hkey.
      assert (Hin : is_Some (formErrors st !! key)) by now exists message.
      apply formErrors_keys in Hin.
      repeat (apply elem_of_cons in Hin as [-> | Hin]).
      * pose proof Hkey as Hk; rewrite Ht in Hk;
          apply flag_message in Hk as [-> _].
        left; repeat split; now apply Xt.
      * pose proof Hkey as Hk; rewrite Hs in Hk;
          apply flag_message in Hk as [-> _].
        right; left; repeat split; now apply Xs.
      * pose proof Hkey as Hk; rewrite Hc in Hk;
          apply flag_message in Hk as [-> _].
        do 2 right; left; repeat split; now apply Xc.
      * pose proof Hkey as Hk; rewrite He in Hk;
          apply flag_message in Hk as [-> _].
        do 3 right; left; repeat split; now apply Xe.
      * pose proof Hkey as Hk; rewrite Hv in Hk;
          apply flag_message in Hk as [-> _].
        do 4 right; split; [reflexivity|split; [reflexivity|now apply Xv]].
      * now apply elem_of_nil in Hin.
    + intros [(-> & -> & H) | [(-> & -> & H) | [(-> & -> & H)
             | [(-> & -> & H) | (-> & -> & H)]]]].
      * now apply Xt.
      * now apply Xs.
      * now apply Xc.
      * now apply Xe.
      * now apply Xv.
Qed.

End Validation.

(** ** Picking a cover image *)

Section ImagePicker.

Import Text BlogForm.
Local Open Scope list_scope.

Lemma handleImageChange_accepted (file : File) (st : PageState) :
  acceptable_image file ->
  handleImageChange (Some file) st =
    {| formData := formData st;
       imageFile := Some file;
       previews := previews st ++ [file];
       validationErrors := delete "coverImage" (validationErrors st) |}.
Proof.
  intros [Htype Hsize]; unfold handleImageChange.
  rewrite Htype; simpl.
  destruct (Z.ltb_spec (5 * 1024 * 1024) (file_size file)) as [Hbig|_]; [lia|].
  reflexivity.
Qed.

Lemma handleImageChange_rejected (file : File) (st : PageState) :
  ~ acceptable_image file ->
  handleImageChange (Some file) st =
    setValidationErrors
      (fun prev =>
         <["coverImage" :=
             if startsWith (file_type file) "image/"
             then "Image size must be less than 5MB"
             else "Please select an image file"]> prev) st.
Proof.
  intros Hbad; unfold handleImageChange.
  destruct (startsWith (file_type file) "image/") eqn:Htype; simpl; [|reflexivity].
  destruct (Z.ltb_spec (5 * 1024 * 1024) (file_size file)) as [_|Hsmall];
    [reflexivity|].
  exfalso; apply Hbad; split; [exact Htype|lia].
Qed.

(** X9.  An image file of at most 5 * 1024 * 1024 bytes -- a file of
    exactly that size included -- becomes the picked file, gets a
    preview read started, clears the cover image error and leaves the
    other errors and the form fields alone; validating next raises no
    cover image error. *)
Theorem image_accepted (file : File) (st : PageState)
    (Htype : startsWith (file_type file) "image/" = true)
    (Hsize : (file_size file <= 5 * 1024 * 1024)%Z) :
  let st' := handleImageChange (Some file) st in
  imageFile st' = Some file /\
  previews st' = previews st ++ [file] /\
  formData st' = formData st /\
  validationErrors st' !! "coverImage" = None /\
  (forall key, key <> "coverImage" ->
     validationErrors st' !! key = validationErrors st !! key) /\
  validationErrors (validateForm st').2 !! "coverImage" = None.
Proof.
  cbv zeta; rewrite handleImageChange_accepted by (split; [exact Htype|lia]).
  simpl; repeat split.
  - apply lookup_delete_eq.
  - intros key Hne; now apply lookup_delete_ne.
  - unfold formErrors; simpl.
    rewrite ?flag_lookup_ne by discriminate; apply lookup_empty.
Qed.

Lemma image_accepted_witness :
  imageFile (handleImageChange
               (Some (mkFile "cover.png" "image/png" 5242880)) initial)
  = Some (mkFile "cover.png" "image/png" 5242880).
Proof.
  refine (proj1 (image_accepted (mkFile "cover.png" "image/png" 5242880)
                   initial _ _)).
  - reflexivity.
  - simpl; lia.
Defined.

(** X10.  A file that is not an image, or is larger than
    5 * 1024 * 1024 bytes, is refused: the file picked before stays,
    no preview read is started, the form fields are untouched, and the
    cover image error says why, the type complaint winning over the
    size complaint. *)
Theorem image_refused (file : File) (st : PageState)
    (Hbad : startsWith (file_type file) "image/" = false \/
            (5 * 1024 * 1024 < file_size file)%Z) :
  let st' := handleImageChange (Some file) st in
  imageFile st' = imageFile st /\
  previews st' = previews st /\
  formData st' = formData st /\
  validationErrors st' !! "coverImage" =
    Some (if startsWith (file_type file) "image/"
          then "Image size must be less than 5MB"
          else "Please select an image file") /\
  (forall key, key <> "coverImage" ->
     validationErrors st' !! key = validationErrors st !! key).
Proof.
  cbv zeta; rewrite handleImageChange_rejected.
  - simpl; repeat split.
    + apply lookup_insert_eq.
    + intros key Hne; now apply lookup_insert_ne.
  - intros [Htype Hsize]; destruct Hbad as [H|H]; [congruence|lia].
Qed.

Lemma image_refused_witness :
  validationErrors
    (handleImageChange (Some (mkFile "notes.pdf" "application/pdf" 9000000))
       (handleImageChange (Some (mkFile "cover.png" "image/png" 1024)) initial))
    !! "coverImage"
  = Some "Please select an image file".
Proof.
  refine (proj1 (proj2 (proj2 (proj2
    (image_refused (mkFile "notes.pdf" "application/pdf" 9000000)
       (handleImageChange (Some (mkFile "cover.png" "image/png" 1024)) initial)
       _))))).
  left; reflexivity.
Defined.

Lemma select_all_snoc (picks : list (option File)) (pick : option File)
    (st : PageState) :
  select_all (picks ++ [pick]) st = handleImageChange pick (select_all picks st).
Proof. unfold select_all; now rewrite fold_left_app. Qed.

Lemma acceptable_imageb_true (f : File) :
  acceptable_imageb f = true <-> acceptable_image f.
Proof.
  unfold acceptable_imageb, acceptable_image.
  now rewrite andb_true_iff, Z.leb_le.
Qed.

Lemma accepted_snoc (picks : list (option File)) (pick : option File) :
  accepted (picks ++ [pick]) = accepted picks ++ accepted [pick].
Proof.
  induction picks as [|[f|] picks IH]; simpl; [reflexivity| |exact IH].
  destruct (acceptable_imageb f); simpl; now rewrite IH.
Qed.

Lemma accepted_elem (picks : list (option File)) (f : File) :
  f ∈ accepted picks -> acceptable_image f /\ Some f ∈ picks.
Proof.
  induction picks as [|[g|] picks IH]; simpl; intros Hin.
  - now apply elem_of_nil in Hin.
  - destruct (acceptable_imageb g) eqn:Hg.
    + apply elem_of_cons in Hin as [->|Hin].
      * split; [now apply acceptable_imageb_true|apply list_elem_of_here].
      * destruct (IH Hin); split; [assumption|now apply list_elem_of_further].
    + destruct (IH Hin); split; [assumption|now apply list_elem_of_further].
  - destruct (IH Hin); split; [assumption|now apply list_elem_of_further].
Qed.

(** One selection: the preview list grows by the file exactly when it
    is accepted, and then the file becomes the picked one. *)
Lemma handleImageChange_exact (pick : option File) (st : PageState) :
  previews (handleImageChange pick st) = previews st ++ accepted [pick] /\
  imageFile (handleImageChange pick st)
    = from_option Some (imageFile st) (last (accepted [pick])) /\
  formData (handleImageChange pick st) = formData st.
Proof.
  destruct pick as [file|]; [|simpl; now rewrite app_nil_r].
  assert (Hacc : accepted [Some file]
                 = if acceptable_imageb file then [file] else []) by reflexivity.
  rewrite Hacc; destruct (acceptable_imageb file) eqn:Hok.
  - apply acceptable_imageb_true in Hok.
    now rewrite handleImageChange_accepted.
  - rewrite handleImageChange_rejected; [simpl; now rewrite app_nil_r|].
    intros Hyes; apply acceptable_imageb_true in Hyes; congruence.
Qed.

Lemma select_all_exact (picks : list (option File)) (st : PageState) :
  previews (select_all picks st) = previews st ++ accepted picks /\
  imageFile (select_all picks st)
    = from_option Some (imageFile st) (last (accepted picks)) /\
  formData (select_all picks st) = formData st.
Proof.
  induction picks as [|pick picks (IHp & IHf & IHd)] using rev_ind.
  { simpl; now rewrite app_nil_r. }
  rewrite select_all_snoc, accepted_snoc.
  destruct (handleImageChange_exact pick (select_all picks st)) as (Hp & Hf & Hd).
  rewrite Hp, Hf, Hd, IHp, IHf, IHd, app_assoc.
  split; [reflexivity|split; [|reflexivity]].
  rewrite last_app.
  now destruct (last (accepted [pick])).
Qed.

(** X11.  However many files are picked and in whatever order: the
    previews started are those started before followed by exactly the
    acceptable selections in order, the picked file is the last
    acceptable selection (or the one picked before, if there was none),
    and the form fields never change.  So, if the picked file and the
    previews were acceptable at the start, the picked file and every
    file a preview read was started on are acceptable images that were
    there at the start or among the selections. *)
Theorem picker_invariant (picks : list (option File)) (st : PageState)
    (Hfile : forall f, imageFile st = Some f -> acceptable_image f)
    (Hreads : Forall acceptable_image (previews st)) :
  let st' := select_all picks st in
  (forall f, imageFile st' = Some f ->
     acceptable_image f /\ (imageFile st = Some f \/ Some f ∈ picks)) /\
  Forall acceptable_image (previews st') /\
  formData st' = formData st /\
  previews st' = previews st ++ accepted picks /\
  imageFile st' = from_option Some (imageFile st) (last (accepted picks)) /\
  Forall (fun f => acceptable_image f /\ (f ∈ previews st \/ Some f ∈ picks))
    (previews st').
Proof.
  cbv zeta.
  destruct (select_all_exact picks st) as (Hp & Hf & Hd).
  assert (Hall : Forall (fun f => acceptable_image f /\
                           (f ∈ previews st \/ Some f ∈ picks))
                   (previews (select_all picks st))).
  { rewrite Hp; apply Forall_app; split.
    - rewrite Forall_forall in Hreads |- *.
      intros f Hin; split; [now apply Hreads|now left].
    - apply Forall_forall; intros f Hin.
      destruct (accepted_elem _ _ Hin); split; [assumption|now right]. }
  refine (conj _ (conj _ (conj Hd (conj Hp (conj Hf Hall))))).
  - intros f; rewrite Hf.
    destruct (last (accepted picks)) as [g|] eqn:Hlast; simpl.
    + intros [= <-]. apply last_Some_elem_of, accepted_elem in Hlast.
      destruct Hlast; split; [assumption|now right].
    + intros Hst; split; [now apply Hfile|now left].
  - eapply Forall_impl; [exact Hall|]. now intros f [Hok _].
Qed.

Lemma picker_invariant_witness :
  previews (select_all
              [Some (mkFile "a.png" "image/png" 2048);
               Some (mkFile "b.exe" "application/octet-stream" 10);
               None;
               Some (mkFile "c.jpg" "image/jpeg" 6000000)]
              initial)
  = [mkFile "a.png" "image/png" 2048].
Proof.
  refine (proj1 (proj2 (proj2 (proj2 (picker_invariant _ initial _ _))))).
  - intros f H; discriminate H.
  - constructor.
Defined.

End ImagePicker.

(** ** The route handlers *)

Section HandlerFacts.

Import Api Routes.

Context `{Backend}.

Lemma tame_pure {A} (P : A -> Prop) (a : A) : P a -> tame P (pure a).
Proof. intros Ha s o s' [= <- <-]; split; [reflexivity|now intros ? [= <-]]. Qed.

Lemma tame_await {A} (op : Call World Failure A) : tame (fun _ => True) (await op).
Proof.
  intros s o s'; unfold await.
  destruct (op s.1) as [o' w]; intros [= <- <-]; now split.
Qed.

Lemma tame_eval {A} (o : Outcome Failure A) : tame (fun _ => True) (eval o).
Proof. intros s o' s' [= <- <-]; now split. Qed.

Lemma tame_bind {A B} (Q : A -> Prop) (P : B -> Prop)
    (m : Eff A) (k : A -> Eff B) :
  tame Q m -> (forall a, tame P (k a)) -> tame P (bind m k).
Proof.
  intros Hm Hk s o s'; unfold bind.
  destruct (m s) as [[a|e] s1] eqn:Em; destruct (Hm _ _ _ Em) as [Hlog _].
  - intros Ek; destruct (Hk a _ _ _ Ek) as [Hlog' HP].
    split; [congruence|exact HP].
  - intros [= <- <-]; split; [exact Hlog|discriminate].
Qed.

Lemma tame_if {A} (P : A -> Prop) (c : bool) (m1 m2 : Eff A) :
  tame P m1 -> tame P m2 -> tame P (if c then m1 else m2).
Proof. now destruct c. Qed.

(** A [try] whose body is tame and whose [catch] logs one line and
    answers [fallback] never throws: it returns what the body returns
    with the console untouched, or [fallback] with exactly one more
    line on the console. *)
Lemma guarded (P : NextResponse -> Prop) (body : Eff NextResponse)
    (label : string) (fallback : NextResponse) (s : Server) :
  tame P body ->
  exists response s',
    try_catch body
      (fun error => _ <~ console_error label error ; pure fallback) s
    = (Returned response, s') /\
    ((s'.2 = s.2 /\ P response) \/
     (exists error, s'.2 = (s.2 ++ [(label, error)])%list /\ response = fallback)).
Proof.
  intros Hbody; unfold try_catch.
  destruct (body s) as [[r|e] s1] eqn:Eb; destruct (Hbody _ _ _ Eb) as [Hlog HP].
  - exists r, s1; split; [reflexivity|left]. split; [exact Hlog|now apply HP].
  - eexists _, _; split; [reflexivity|right].
    exists e; simpl; now rewrite Hlog.
Qed.

Lemma tame_answer (codes : list Z) (response : NextResponse) :
  status response ∈ codes -> tame (status_in codes) (pure response).
Proof. exact (tame_pure (status_in codes) response). Qed.

Ltac quiet :=
  repeat first
    [ apply tame_await
    | apply tame_eval
    | apply tame_if
    | apply tame_pure; exact I
    | eapply (tame_bind (fun _ => True)); [|intros ?] ].

Ltac tame_step :=
  first
    [ apply tame_answer; simpl; set_solver
    | eapply (tame_bind (fun _ => True)); [solve [quiet]|intros ?]
    | apply tame_if
    | match goal with |- tame _ (match ?x with _ => _ end) => destruct x end ].

Ltac contain := intros s; apply guarded; repeat tame_step.

(** X12.  No handler of the blog API or of the ImageKit route lets an
    exception escape, and none shows one to the caller: whatever the
    imported operations do, the handler returns a response; either it
    logged nothing and the status is one of the handler's regular
    ones, or it logged exactly one line and the response is its fixed
    500 message. *)
Theorem failures_contained (request : NextRequest) (id slug : string) :
  contained (GET_blog request id) [200; 401; 404]
    "Error fetching blog:" "Failed to fetch blog" /\
  contained (PUT_blog request id) [200; 401; 404]
    "Error updating blog:" "Failed to update blog" /\
  contained (DELETE_blog request id) [200; 401; 404]
    "Error deleting blog:" "Failed to delete blog" /\
  contained (GET_blogs request) [200; 401]
    "Error fetching blogs:" "Failed to fetch blogs" /\
  contained (POST_blog request) [201; 401]
    "Error creating blog:" "Failed to create blog" /\
  contained (GET_published slug) [200; 404]
    ("Failed to fetch blog with slug " ++ slug ++ ":") "Failed to fetch blog" /\
  contained GET_imagekit_auth [200; 401]
    "ImageKit authentication error:" "Authentication failed".
Proof.
  repeat split; contain.
Qed.

(** X13.  Without a session the handlers of the admin blog API and of
    the ImageKit route answer 401 with [{error: Unauthorized}] and do
    nothing else: the database is not connected to, the body is not
    read, nothing is logged, and the world is as [getSession] left
    it. *)
Theorem no_session_no_work (request : NextRequest) (id : string)
    (s : Server) (w : World)
    (Hnone : getSession s.1 = (Returned None, w)) :
  let refused := (Returned (json_error "Unauthorized" 401), (w, s.2)) in
  GET_blog request id s = refused /\
  PUT_blog request id s = refused /\
  DELETE_blog request id s = refused /\
  GET_blogs request s = refused /\
  POST_blog request s = refused /\
  GET_imagekit_auth s = refused.
Proof.
  cbv zeta.
  unfold GET_blog, PUT_blog, DELETE_blog, GET_blogs, POST_blog,
    GET_imagekit_auth, try_catch, bind, await.
  rewrite Hnone; simpl.
  repeat split.
Qed.

(** Reading the map of the object literal of POST. *)
Lemma blog_fields_lookup (body : Json Num) (author publishedAt : Json Num + Native) :
  let fields := blog_fields body author publishedAt in
  fields !! Text.units "author" = Some author /\
  fields !! Text.units "publishedAt" = Some publishedAt /\
  (forall key, key <> Text.units "author" -> key <> Text.units "publishedAt" ->
     fields !! key = inl <$> own_properties body !! key).
Proof.
  cbv zeta; unfold blog_fields; repeat split.
  - rewrite lookup_insert_ne by discriminate. apply lookup_insert_eq.
  - apply lookup_insert_eq.
  - intros key Ha Hp.
    rewrite !lookup_insert_ne by congruence.
    apply lookup_fmap.
Qed.

(** X14.  A POST by a signed-in user with a body other than [null]
    constructs the document from the one map that has the session
    user's id under [author], the computed date under [publishedAt]
    (the clock's time if [body.published] is truthy, [null] if not)
    and every other own property of the body as it is; it saves that
    document and answers 201 with it.  Members [author] and
    [publishedAt] of the body never reach the constructor. *)
Theorem POST_author_is_session
    (request : NextRequest) (s : Server) (session : Session)
    (body : Json Num) (author : Json Num + Native) (now : Native)
    (w1 w2 w3 w4 w5 w6 w7 : World)
    (fields : gmap (list N) (Json Num + Native))
    (blog saved : Document) (data : string)
    (Hsession : getSession s.1 = (Returned (Some session), w1))
    (Hconnect : connectDB w1 = (Returned tt, w2))
    (Hbody : request_json request w2 = (Returned body, w3))
    (Hnotnull : body <> JNull)
    (Hauthor : session_user_id session = Returned author)
    (Hclock : truthy_json (own_properties body !! Text.units "published") = true ->
              new_Date w3 = (Returned now, w4))
    (Hfields_author : fields !! Text.units "author" = Some author)
    (Hfields_date :
       fields !! Text.units "publishedAt" =
       Some (if truthy_json (own_properties body !! Text.units "published")
             then inr now else inl JNull))
    (Hfields_rest :
       forall key, key <> Text.units "author" -> key <> Text.units "publishedAt" ->
         fields !! key = inl <$> own_properties body !! key)
    (Hnew : Blog_new fields
              (if truthy_json (own_properties body !! Text.units "published")
               then w4 else w3)
            = (Returned blog, w5))
    (Hsave : Blog_save blog w5 = (Returned saved, w6))
    (Hdata : stringify_document saved w6 = (Returned data, w7)) :
  POST_blog request s = (Returned (NextResponse_json data 201), (w7, s.2)).
Proof.
  set (published := truthy_json (own_properties body !! Text.units "published")) in *.
  assert (Hmap : blog_fields body author
                   (if published then inr now else inl JNull) = fields).
  { apply map_eq; intros key.
    destruct (blog_fields_lookup body author
                (if published then inr now else inl JNull)) as (Ha & Hd & Hr).
    destruct (decide (key = Text.units "author")) as [->|Hna]; [congruence|].
    destruct (decide (key = Text.units "publishedAt")) as [->|Hnd]; [congruence|].
    now rewrite Hr, Hfields_rest. }
  assert (Hread : read_published body
                  = Returned (own_properties body !! Text.units "published")).
  { destruct body; try reflexivity. now contradiction Hnotnull. }
  unfold POST_blog, try_catch, bind, await, eval.
  rewrite Hsession; simpl.
  rewrite Hconnect; simpl.
  rewrite Hbody; simpl.
  rewrite Hauthor, Hread; simpl.
  fold published.
  destruct published; simpl.
  - rewrite (Hclock eq_refl); simpl.
    rewrite Hmap, Hnew; simpl. rewrite Hsave; simpl. now rewrite Hdata.
  - unfold pure; simpl.
    rewrite Hmap, Hnew; simpl. rewrite Hsave; simpl. now rewrite Hdata.
Qed.

(** X15.  A POST whose body is the JSON value [null] is answered with
    the 500 message: reading [body.published] throws, the [TypeError]
    is logged, and no document is constructed or saved, the world
    being as the body parser left it. *)
Theorem POST_null_body (request : NextRequest) (s : Server)
    (session : Session) (author : Json Num + Native) (w1 w2 w3 : World)
    (Hsession : getSession s.1 = (Returned (Some session), w1))
    (Hconnect : connectDB w1 = (Returned tt, w2))
    (Hbody : request_json request w2 = (Returned JNull, w3))
    (Hauthor : session_user_id session = Returned author) :
  POST_blog request s =
    (Returned (json_error "Failed to create blog" 500),
     (w3, (s.2 ++ [("Error creating blog:", TypeError_null)])%list)).
Proof.
  unfold POST_blog, try_catch, bind, await, eval.
  rewrite Hsession; simpl.
  rewrite Hconnect; simpl.
  rewrite Hbody; simpl.
  rewrite Hauthor; simpl.
  reflexivity.
Qed.

End HandlerFacts.

Lemma no_session_no_work_witness :
  Routes.DELETE_blog (H := Sample.backend) Sample.request "42" (Sample.anonymous, [])
  = (Api.Returned (Api.json_error "Unauthorized" 401), (Sample.anonymous, [])).
Proof.
  refine (proj1 (proj2 (proj2
    (no_session_no_work (H := Sample.backend) Sample.request "42"
       (Sample.anonymous, []) Sample.anonymous _)))).
  reflexivity.
Defined.

Lemma POST_author_is_session_witness :
  exists doc,
    Routes.POST_blog (H := Ledger.backend) Sample.request
      (Ledger.editor_posting, [])
    = (Api.Returned (Api.NextResponse_json "{}" 201),
       (Ledger.mkBooks (Some "editor") Ledger.forged_body [doc], [])) /\
    doc !! Text.units "author"
      = Some (inl (Api.JString (Text.units "editor"))) /\
    doc !! Text.units "publishedAt" = Some (inr "2025-01-01T00:00:00.000Z") /\
    doc !! Text.units "title" = Some (inl (Api.JString (Text.units "Hello"))).
Proof.
  exists (Api.blog_fields (H := Ledger.backend) Ledger.forged_body
            (inl (Api.JString (Text.units "editor")))
            (inr "2025-01-01T00:00:00.000Z")).
  split; [|repeat split; vm_compute; reflexivity].
  apply (POST_author_is_session (H := Ledger.backend) Sample.request
           (Ledger.editor_posting, []) "editor" Ledger.forged_body
           (inl (Api.JString (Text.units "editor")))
           "2025-01-01T00:00:00.000Z"
           Ledger.editor_posting Ledger.editor_posting Ledger.editor_posting
           Ledger.editor_posting Ledger.editor_posting
           (Ledger.mkBooks (Some "editor") Ledger.forged_body
              [Api.blog_fields (H := Ledger.backend) Ledger.forged_body
                 (inl (Api.JString (Text.units "editor")))
                 (inr "2025-01-01T00:00:00.000Z")])
           (Ledger.mkBooks (Some "editor") Ledger.forged_body
              [Api.blog_fields (H := Ledger.backend) Ledger.forged_body
                 (inl (Api.JString (Text.units "editor")))
                 (inr "2025-01-01T00:00:00.000Z")])
           (Api.blog_fields (H := Ledger.backend) Ledger.forged_body
              (inl (Api.JString (Text.units "editor")))
              (inr "2025-01-01T00:00:00.000Z"))
           (Api.blog_fields (H := Ledger.backend) Ledger.forged_body
              (inl (Api.JString (Text.units "editor")))
              (inr "2025-01-01T00:00:00.000Z"))
           (Api.blog_fields (H := Ledger.backend) Ledger.forged_body
              (inl (Api.JString (Text.units "editor")))
              (inr "2025-01-01T00:00:00.000Z"))
           "{}").
  - reflexivity.
  - reflexivity.
  - reflexivity.
  - discriminate.
  - reflexivity.
  - reflexivity.
  - vm_compute; reflexivity.
  - vm_compute; reflexivity.
  - intros key Ha Hd.
    apply (blog_fields_lookup (H := Ledger.backend) Ledger.forged_body
             (inl (Api.JString (Text.units "editor")))
             (inr "2025-01-01T00:00:00.000Z")); assumption.
  - reflexivity.
  - reflexivity.
  - reflexivity.
Defined.

Lemma POST_null_body_witness :
  Routes.POST_blog (H := Sample.backend) Sample.request
    (Sample.editor_posting_null, [])
  = (Api.Returned (Api.json_error "Failed to create blog" 500),
     (Sample.editor_posting_null, [("Error creating blog:", "TypeError")])).
Proof.
  apply (POST_null_body (H := Sample.backend) Sample.request
           (Sample.editor_posting_null, []) "editor"
           (inl (Api.JString (Text.units "editor")))
           Sample.editor_posting_null Sample.editor_posting_null
           Sample.editor_posting_null);
    reflexivity.
Defined.
